(** * AB-T SIP signalling core: a shallow embedding of [server/sipService.ts]

    The service is a single-threaded, event-driven object.  Each
    synchronous segment of a method (the code between two suspension
    points) is embedded as a pure function on an explicit [State]; the
    event loop is the fold of [step] over a list of [Event]s.

    - JS numbers used as counters (CSeq, attempts, status codes, clock
      readings) are unbounded naturals; the code only adds one to them.
      Ports and millisecond durations are binary naturals.
    - [sip.send] is a property of the transport module that the code itself
      tests with [typeof sip.send !== 'function']; the flag
      [sip_send_available] holds the result of that test, and calling
      [sip.send] while it is false raises a [TypeError], as in JS.
    - Every message handed to [sip.send] is appended to [sent], in order.
    - The digest helper ([sip/digest.js]) is an external collaborator and
      is taken as a parameter ([Digest]).
    - A promise is a cell counting the [resolve] and [reject] calls
      applied to it. *)

From Stdlib Require Import Ascii String.
From stdpp Require Import gmap strings list fin_maps pretty.

Open Scope string_scope.

(** ** Data model *)

Inductive Status := initiating | ringing | answered | ended | failed.

#[global] Instance Status_eq_dec : EqDecision Status.
Proof. solve_decision. Defined.

(** An address header value [{ uri, params: { tag } }]. *)
Record Addr := { uri : string; tag : option string }.

Record Via := {
  via_version : string; via_protocol : string; via_host : string;
  via_port : N; via_branch : string }.

Record CSeq := { cs_method : string; cs_seq : nat }.

(** Headers of an inbound message (type [any] in the source): every header
    the code reads through [?.] or copies without looking at it may be
    missing. *)
Record Headers := {
  h_to : option Addr;
  h_from : option Addr;
  h_call_id : string;
  h_cseq : option CSeq;
  h_contact : list string;          (* the [uri]s of [headers.contact] *)
  h_via : list Via }.

(** An inbound message: a response has a status, a request a method. *)
Record Message := {
  m_method : option string;
  m_status : option nat;
  m_reason : string;
  m_headers : Headers }.

(** A request literal built by the service. *)
Record Request := {
  method : string;
  r_uri : string;
  r_to : option Addr;
  r_from : option Addr;
  r_call_id : string;
  r_cseq : CSeq;
  r_contact : list string;
  r_expires : option nat;
  r_content_type : option string;
  r_via : list Via;
  r_authorization : option string;   (* added by [digest.signRequest] *)
  r_content : option string }.

(** What [sip.send] was called with: a request, or the [200 OK] literal
    that mirrors the headers of an inbound BYE. *)
Inductive Outbound :=
| OutRequest (r : Request)
| OutOk (status : nat) (reason : string) (h : Headers).

Record SIPDialog := {
  local : option Addr;
  remote : option Addr;
  routeSet : list string;
  cseq : nat;
  inviteRequest : option Request;
  lastResponse : option Message }.

Record SIPCall := {
  callId : string;
  toNumber : string;
  fromNumber : string;
  dialog : option SIPDialog;
  status : Status;
  startTime : nat;
  endTime : option nat;
  error : option string }.

(** The realm/nonce material kept by the digest helper inside a session. *)
Definition AuthMaterial := list (string * string).

(** [this.authSession]: the REGISTER dialog identity, its sequence counter,
    and the digest material. *)
Record AuthSession := {
  as_callId : option string;
  as_tag : option string;
  as_cseq : option nat;
  as_material : AuthMaterial }.

(** The digest helper.  [inl e] stands for a thrown error whose rendering
    is [e]. *)
Record Digest := {
  challenge : AuthMaterial → Message → string + AuthMaterial;
  signRequest : AuthMaterial → Request → string → string →
                string + (AuthMaterial * string) }.

(** A promise: how many times [resolve] was applied, and the messages of
    the errors [reject] was applied with, oldest first. *)
Record Future := { resolves : nat; rejects : list string }.

(** Constructor arguments, [process.env], and the values [randomUUID]
    yields for the REGISTER dialog the first time [register] asks. *)
Record Env := {
  sipUsername : string;
  sipPassword : string;
  sipServer : string;
  sipPort : N;
  cfg_fromNumber : string;
  localIP : string;
  publicIP : string;
  NODE_ENV : option string;
  SIP_USE_TCP : option string;
  FALEVONO_SIP_PORT : N;            (* parseInt of the variable, 7060 by default *)
  uuid_register_callId : string;
  uuid_register_tag : string }.

Record State := {
  env : Env;
  sip_send_available : bool;
  globalSipStarted : bool;
  initialized : bool;
  registered : bool;
  activeCalls : gmap string SIPCall;
  callOrder : list string;            (* insertion order of the JS Map *)
  authSession : AuthSession;
  clientPort : N;
  transport : string;
  registrationPromise : option nat;
  registrationResolve : option nat;
  registrationReject : option nat;
  registrationAttempts : nat;
  maxRegistrationAttempts : nat;
  futures : list Future;
  timers : list (nat * N);            (* pending timers: future, timeout in ms *)
  sent : list Outbound }.

(** ** Field updates (JS assignments to one property) *)

Definition call_set_status (v : Status) (c : SIPCall) : SIPCall :=
  {| callId := callId c; toNumber := toNumber c; fromNumber := fromNumber c;
     dialog := dialog c; status := v; startTime := startTime c;
     endTime := endTime c; error := error c |}.

Definition call_set_error (v : string) (c : SIPCall) : SIPCall :=
  {| callId := callId c; toNumber := toNumber c; fromNumber := fromNumber c;
     dialog := dialog c; status := status c; startTime := startTime c;
     endTime := endTime c; error := Some v |}.

Definition call_set_endTime (v : nat) (c : SIPCall) : SIPCall :=
  {| callId := callId c; toNumber := toNumber c; fromNumber := fromNumber c;
     dialog := dialog c; status := status c; startTime := startTime c;
     endTime := Some v; error := error c |}.

Definition call_set_dialog (v : SIPDialog) (c : SIPCall) : SIPCall :=
  {| callId := callId c; toNumber := toNumber c; fromNumber := fromNumber c;
     dialog := Some v; status := status c; startTime := startTime c;
     endTime := endTime c; error := error c |}.

(** [call.status = 'failed'; call.error = e; call.endTime = new Date()] *)
Definition call_fail (e : string) (now : nat) (c : SIPCall) : SIPCall :=
  call_set_endTime now (call_set_error e (call_set_status failed c)).

(** [call.status = 'ended'; call.endTime = new Date()] *)
Definition call_end (now : nat) (c : SIPCall) : SIPCall :=
  call_set_endTime now (call_set_status ended c).

Definition dialog_set_cseq (v : nat) (d : SIPDialog) : SIPDialog :=
  {| local := local d; remote := remote d; routeSet := routeSet d; cseq := v;
     inviteRequest := inviteRequest d; lastResponse := lastResponse d |}.

Definition dialog_set_inviteRequest (v : Request) (d : SIPDialog) : SIPDialog :=
  {| local := local d; remote := remote d; routeSet := routeSet d;
     cseq := cseq d; inviteRequest := Some v; lastResponse := lastResponse d |}.

(** [lastResponse = message; remote = message.headers.to;
     local = message.headers.from] *)
Definition dialog_answer (message : Message) (d : SIPDialog) : SIPDialog :=
  {| local := h_from (m_headers message); remote := h_to (m_headers message);
     routeSet := routeSet d; cseq := cseq d;
     inviteRequest := inviteRequest d; lastResponse := Some message |}.

Definition request_set_seq (v : nat) (r : Request) : Request :=
  {| method := method r; r_uri := r_uri r; r_to := r_to r; r_from := r_from r;
     r_call_id := r_call_id r;
     r_cseq := {| cs_method := cs_method (r_cseq r); cs_seq := v |};
     r_contact := r_contact r; r_expires := r_expires r;
     r_content_type := r_content_type r; r_via := r_via r;
     r_authorization := r_authorization r; r_content := r_content r |}.

Definition request_set_authorization (v : string) (r : Request) : Request :=
  {| method := method r; r_uri := r_uri r; r_to := r_to r; r_from := r_from r;
     r_call_id := r_call_id r; r_cseq := r_cseq r;
     r_contact := r_contact r; r_expires := r_expires r;
     r_content_type := r_content_type r; r_via := r_via r;
     r_authorization := Some v; r_content := r_content r |}.

Definition set_stack (avail started : bool) (s : State) : State :=
  {| env := env s; sip_send_available := avail; globalSipStarted := started;
     initialized := initialized s; registered := registered s;
     activeCalls := activeCalls s; callOrder := callOrder s;
     authSession := authSession s; clientPort := clientPort s;
     transport := transport s; registrationPromise := registrationPromise s;
     registrationResolve := registrationResolve s;
     registrationReject := registrationReject s;
     registrationAttempts := registrationAttempts s;
     maxRegistrationAttempts := maxRegistrationAttempts s;
     futures := futures s; timers := timers s; sent := sent s |}.

Definition set_flags (init reg : bool) (s : State) : State :=
  {| env := env s; sip_send_available := sip_send_available s;
     globalSipStarted := globalSipStarted s;
     initialized := init; registered := reg;
     activeCalls := activeCalls s; callOrder := callOrder s;
     authSession := authSession s; clientPort := clientPort s;
     transport := transport s; registrationPromise := registrationPromise s;
     registrationResolve := registrationResolve s;
     registrationReject := registrationReject s;
     registrationAttempts := registrationAttempts s;
     maxRegistrationAttempts := maxRegistrationAttempts s;
     futures := futures s; timers := timers s; sent := sent s |}.

Definition set_calls (m : gmap string SIPCall) (o : list string) (s : State) : State :=
  {| env := env s; sip_send_available := sip_send_available s;
     globalSipStarted := globalSipStarted s;
     initialized := initialized s; registered := registered s;
     activeCalls := m; callOrder := o;
     authSession := authSession s; clientPort := clientPort s;
     transport := transport s; registrationPromise := registrationPromise s;
     registrationResolve := registrationResolve s;
     registrationReject := registrationReject s;
     registrationAttempts := registrationAttempts s;
     maxRegistrationAttempts := maxRegistrationAttempts s;
     futures := futures s; timers := timers s; sent := sent s |}.

Definition set_transport (port : N) (t : string) (s : State) : State :=
  {| env := env s; sip_send_available := sip_send_available s;
     globalSipStarted := globalSipStarted s;
     initialized := initialized s; registered := registered s;
     activeCalls := activeCalls s; callOrder := callOrder s;
     authSession := authSession s; clientPort := port;
     transport := t; registrationPromise := registrationPromise s;
     registrationResolve := registrationResolve s;
     registrationReject := registrationReject s;
     registrationAttempts := registrationAttempts s;
     maxRegistrationAttempts := maxRegistrationAttempts s;
     futures := futures s; timers := timers s; sent := sent s |}.

(** The registration bookkeeping: session, settle functions, attempt
    count, promise cells and pending timers. *)
Definition set_registration (a : AuthSession) (p res rej : option nat)
    (n : nat) (fs : list Future) (ts : list (nat * N)) (s : State) : State :=
  {| env := env s; sip_send_available := sip_send_available s;
     globalSipStarted := globalSipStarted s;
     initialized := initialized s; registered := registered s;
     activeCalls := activeCalls s; callOrder := callOrder s;
     authSession := a; clientPort := clientPort s;
     transport := transport s; registrationPromise := p;
     registrationResolve := res; registrationReject := rej;
     registrationAttempts := n;
     maxRegistrationAttempts := maxRegistrationAttempts s;
     futures := fs; timers := ts; sent := sent s |}.

Definition set_sent (l : list Outbound) (s : State) : State :=
  {| env := env s; sip_send_available := sip_send_available s;
     globalSipStarted := globalSipStarted s;
     initialized := initialized s; registered := registered s;
     activeCalls := activeCalls s; callOrder := callOrder s;
     authSession := authSession s; clientPort := clientPort s;
     transport := transport s; registrationPromise := registrationPromise s;
     registrationResolve := registrationResolve s;
     registrationReject := registrationReject s;
     registrationAttempts := registrationAttempts s;
     maxRegistrationAttempts := maxRegistrationAttempts s;
     futures := futures s; timers := timers s; sent := l |}.

Definition set_authSession (a : AuthSession) (s : State) : State :=
  set_registration a (registrationPromise s) (registrationResolve s)
    (registrationReject s) (registrationAttempts s) (futures s) (timers s) s.

Definition set_attempts (n : nat) (s : State) : State :=
  set_registration (authSession s) (registrationPromise s)
    (registrationResolve s) (registrationReject s) n (futures s) (timers s) s.

(** Mutation of the call object stored under [id]. *)
Definition update_call (id : string) (f : SIPCall → SIPCall) (s : State) : State :=
  set_calls (alter f id (activeCalls s)) (callOrder s) s.

(** [sip.send(m, callback)]: [None] is the [TypeError] raised when
    [sip.send] is not a function. *)
Definition sip_send (m : Outbound) (s : State) : option State :=
  if sip_send_available s then Some (set_sent (sent s ++ [m]) s) else None.

(** ** Strings *)

Definition CR : string := String "013"%char "".
Definition LF : string := String "010"%char "".
Definition CRLF : string := CR +:+ LF.

(** [\d] of a JS regular expression: the ASCII digits. *)
Definition is_digit (a : ascii) : bool :=
  let n := Ascii.nat_of_ascii a in (48 <=? n)%nat && (n <=? 57)%nat.

(** [toNumber.replace(/[^\d]/g, '')] *)
Fixpoint digits_only (s : string) : string :=
  match s with
  | "" => ""
  | String a r => if is_digit a then String a (digits_only r) else digits_only r
  end.

(** [lines.join(sep)] *)
Fixpoint join (sep : string) (lines : list string) : string :=
  match lines with
  | [] => ""
  | [l] => l
  | l :: r => l +:+ sep +:+ join sep r
  end.

(** [a || b] on strings: the empty string is falsy. *)
Definition str_or (a b : string) : string := if bool_decide (a = "") then b else a.

(** [process.env.X === v] *)
Definition env_is (x : option string) (v : string) : bool := bool_decide (x = Some v).

(** ** Request construction *)

Definition getSignalingHost (s : State) : string :=
  str_or (publicIP (env s)) (localIP (env s)).

Definition contactUri (s : State) : string :=
  let base := "sip:" +:+ sipUsername (env s) +:+ "@" +:+ getSignalingHost s
              +:+ ":" +:+ pretty (clientPort s) in
  if bool_decide (transport s = "TCP") then base +:+ ";transport=tcp" else base.

Definition createSDP (sessionId : nat) (s : State) : string :=
  let signalingHost := getSignalingHost s in
  join CRLF
    [ "v=0";
      "o=- " +:+ pretty sessionId +:+ " " +:+ pretty 1%nat +:+ " IN IP4 " +:+ signalingHost;
      "s=Abmix Call";
      "c=IN IP4 " +:+ signalingHost;
      "t=0 0";
      "m=audio 8000 RTP/AVP 0 8 101";
      "a=rtpmap:0 PCMU/8000";
      "a=rtpmap:8 PCMA/8000";
      "a=rtpmap:101 telephone-event/8000";
      "a=sendrecv" ] +:+ CRLF.

Definition registerRequest (callId tag : string) (seq : nat) (s : State) : Request :=
  let aor := "sip:" +:+ sipUsername (env s) +:+ "@" +:+ sipServer (env s) in
  {| method := "REGISTER";
     r_uri := "sip:" +:+ sipServer (env s) +:+ ":" +:+ pretty (sipPort (env s));
     r_to := Some {| uri := aor; tag := None |};
     r_from := Some {| uri := aor; tag := Some tag |};
     r_call_id := callId;
     r_cseq := {| cs_method := "REGISTER"; cs_seq := seq |};
     r_contact := [contactUri s];
     r_expires := Some 3600%nat;
     r_content_type := None;
     r_via := [];
     r_authorization := None;
     r_content := None |}.

Definition inviteRequest_of (cleanNumber callId tag branch sdp : string) (s : State) : Request :=
  {| method := "INVITE";
     r_uri := "sip:" +:+ cleanNumber +:+ "@" +:+ sipServer (env s) +:+ ":"
              +:+ pretty (sipPort (env s));
     r_to := Some {| uri := "sip:" +:+ cleanNumber +:+ "@" +:+ sipServer (env s);
                     tag := None |};
     r_from := Some {| uri := "sip:" +:+ sipUsername (env s) +:+ "@" +:+ sipServer (env s);
                       tag := Some tag |};
     r_call_id := callId;
     r_cseq := {| cs_method := "INVITE"; cs_seq := 1 |};
     r_contact := [contactUri s];
     r_expires := None;
     r_content_type := Some "application/sdp";
     r_via := [ {| via_version := "2.0"; via_protocol := transport s;
                   via_host := getSignalingHost s; via_port := clientPort s;
                   via_branch := branch |} ];
     r_authorization := None;
     r_content := Some sdp |}.

(** [x?.[0]?.uri]: the first contact, when there is one and it is truthy. *)
Definition first_contact (h : Headers) : option string :=
  match h_contact h with
  | u :: _ => if bool_decide (u = "") then None else Some u
  | [] => None
  end.

(** [headers.contact?.[0]?.uri || fallback.uri]; [None] is the [TypeError]
    of reading [.uri] of an undefined fallback. *)
Definition contact_or (h : Headers) (fallback : option Addr) : option string :=
  match first_contact h with
  | Some u => Some u
  | None => uri <$> fallback
  end.

(** ** Registration Manager *)

Section WithDigest.
Context (D : Digest).

(** [register(authChallenge?)], lines 318-391.  It never rejects: every
    failure past the counter updates is caught and logged. *)
Definition register (authChallenge : option Message) (s : State) : State :=
  let s1 := match authChallenge with
            | None => set_attempts (S (registrationAttempts s)) s
            | Some _ => s
            end in
  let a := authSession s1 in
  let callId := default (uuid_register_callId (env s1))
                  (match as_callId a with Some "" => None | o => o end) in
  let tag := default (uuid_register_tag (env s1))
               (match as_tag a with Some "" => None | o => o end) in
  let seq := S (default 0%nat (as_cseq a)) in
  let a1 := {| as_callId := Some callId; as_tag := Some tag;
               as_cseq := Some seq; as_material := as_material a |} in
  let s2 := set_authSession a1 s1 in
  let req := registerRequest callId tag seq s2 in
  let signed :=
    match authChallenge with
    | Some _ =>
        match signRequest D (as_material a1) req (sipUsername (env s2))
                (sipPassword (env s2)) with
        | inl _ => None
        | inr (m, h) =>
            Some (set_authSession
                    {| as_callId := Some callId; as_tag := Some tag;
                       as_cseq := Some seq; as_material := m |} s2,
                  request_set_authorization h req)
        end
    | None => Some (s2, req)
    end in
  match signed with
  | None => s2
  | Some (s3, req') =>
      match sip_send (OutRequest req') s3 with
      | Some s4 => s4
      | None => s3
      end
  end.

(** The message the registration timer rejects with, lines 287-303. *)
Definition timeoutMessage (node_env : option string) (timeout : N) (attempts : nat) : string :=
  let e := str_or (default "" node_env) "production" in
  let head := "SIP registration timeout after " +:+ pretty (timeout / 1000)%N
              +:+ " seconds (" +:+ pretty attempts +:+ " attempts)" in
  if bool_decide (e = "development") then
    head +:+ LF +:+ LF +:+ "⚠️  REPLIT LIMITATION: UDP ports are blocked in development." +:+ LF
    +:+ "Solutions:" +:+ LF
    +:+ "1. Set SIP_USE_TCP=true to try TCP (may not work with all providers)" +:+ LF
    +:+ "2. Deploy to production (EasyPanel/VPS) where UDP works" +:+ LF
    +:+ "3. Test locally with Docker" +:+ LF
  else
    head +:+ LF +:+ LF +:+ "🔧 PRODUCTION TROUBLESHOOTING:" +:+ LF
    +:+ "1. Check if UDP port 5060 is accessible from EasyPanel" +:+ LF
    +:+ "2. Verify FALEVONO_PASSWORD is correct" +:+ LF
    +:+ "3. Try TCP fallback: Set SIP_USE_TCP=true" +:+ LF
    +:+ "4. Check if SIP server vono2.me:5060 is reachable" +:+ LF
    +:+ "5. Check network connectivity to vono2.me" +:+ LF.

(** Applying the [resolve] / [reject] function of promise [f]. *)
Definition apply_resolve (f : nat) (fs : list Future) : list Future :=
  match fs !! f with
  | Some c => <[f := {| resolves := S (resolves c); rejects := rejects c |}]> fs
  | None => fs
  end.

Definition apply_reject (f : nat) (e : string) (fs : list Future) : list Future :=
  match fs !! f with
  | Some c => <[f := {| resolves := resolves c; rejects := rejects c ++ [e] |}]> fs
  | None => fs
  end.

Definition set_futures (fs : list Future) (s : State) : State :=
  set_registration (authSession s) (registrationPromise s)
    (registrationResolve s) (registrationReject s) (registrationAttempts s)
    fs (timers s) s.

Definition set_timers (ts : list (nat * N)) (s : State) : State :=
  set_registration (authSession s) (registrationPromise s)
    (registrationResolve s) (registrationReject s) (registrationAttempts s)
    (futures s) ts s.

(** [registrationResolve = null; registrationReject = null] after a settle. *)
Definition settle (fs : list Future) (s : State) : State :=
  set_registration (authSession s) (registrationPromise s) None None
    (registrationAttempts s) fs (timers s) s.

Fixpoint timer_of (f : nat) (ts : list (nat * N)) : option N :=
  match ts with
  | [] => None
  | (g, t) :: r => if bool_decide (g = f) then Some t else timer_of f r
  end.

Fixpoint drop_timer (f : nat) (ts : list (nat * N)) : list (nat * N) :=
  match ts with
  | [] => []
  | (g, t) :: r => if bool_decide (g = f) then r else (g, t) :: drop_timer f r
  end.

(** The [setTimeout] callback of lines 274-307, for the timer armed with
    the [reject] function of promise [f].  A timer that is not pending does
    not fire. *)
Definition registrationTimer (f : nat) (s : State) : State :=
  match timer_of f (timers s) with
  | None => s
  | Some timeout =>
      let s0 := set_timers (drop_timer f (timers s)) s in
      if registered s0 then s0
      else if (registrationAttempts s0 <? maxRegistrationAttempts s0)%nat
      then register None s0
      else set_futures
             (apply_reject f
                (timeoutMessage (NODE_ENV (env s0)) timeout (registrationAttempts s0))
                (futures s0)) s0
  end.

(** [useTCP] and the registration timeout, lines 191 and 269-270. *)
Definition useTCP (e : Env) : bool :=
  env_is (SIP_USE_TCP e) "true" || env_is (NODE_ENV e) "development".

Definition registrationTimeout (e : Env) : N :=
  if env_is (NODE_ENV e) "production"
  then (if useTCP e then 30000 else 20000)%N
  else (if useTCP e then 15000 else 10000)%N.

(** [initialize()].  [start_ok] is what the transport library does when
    the stack is started: whether [sip.send] is a function once
    [sip.start] has returned and the polling loop is over.  The suspension
    points of the start-up phase are collapsed; the segment from
    [this.initialized = true] to the end is synchronous in the source. *)
Definition initialize (start_ok : bool) (s : State) : State :=
  if initialized s then s else
  let s1 := set_transport (FALEVONO_SIP_PORT (env s))
              (if useTCP (env s) then "TCP" else "UDP") s in
  let started : option State :=
    if negb (globalSipStarted s1) then
      if start_ok then Some (set_stack true true s1)
      else None
    else if negb (sip_send_available s1) then None
    else Some s1 in
  match started with
  | None =>
      if negb (globalSipStarted s1) then set_stack start_ok false s1
      else set_stack (sip_send_available s1) false s1
  | Some s2 =>
      let s3 := set_flags true (registered s2) s2 in
      let f := length (futures s3) in
      let s4 := set_registration (authSession s3) (Some f) (Some f) (Some f)
                  (registrationAttempts s3)
                  (futures s3 ++ [ {| resolves := 0; rejects := [] |} ])
                  (timers s3 ++ [ (f, registrationTimeout (env s3)) ]) s3 in
      register None s4
  end.

End WithDigest.

(** ** Call Lifecycle Manager *)

Definition send_unavailable : string :=
  "SIP stack not properly initialized - sip.send not available".

(** [makeCall(toNumber)] from line 409 on: the synchronous segment that
    runs once the waits for initialisation and registration are over.
    [callId], [tag] and [branch] are the three [randomUUID()] results,
    [now] the clock reading and [sessionId] the [Date.now()] of
    [createSDP].  The result is the call-id, or [None] when the segment
    throws. *)
Definition makeCall (toNumber callId tag branch : string) (now sessionId : nat)
    (s : State) : option string * State :=
  let cleanNumber := digits_only toNumber in
  let call := {| callId := callId; toNumber := cleanNumber;
                 fromNumber := cfg_fromNumber (env s); dialog := None;
                 status := initiating; startTime := now; endTime := None;
                 error := None |} in
  let order := if decide (is_Some (activeCalls s !! callId)) then callOrder s
               else (callOrder s ++ [callId])%list in
  let inv := inviteRequest_of cleanNumber callId tag ("z9hG4bK" +:+ branch)
               (createSDP sessionId s) s in
  let d := {| local := r_from inv; remote := r_to inv; routeSet := [];
              cseq := 1; inviteRequest := Some inv; lastResponse := None |} in
  let call1 := call_set_dialog d call in
  let s1 := set_calls (<[callId := call1]> (activeCalls s)) order s in
  match sip_send (OutRequest inv) s1 with
  | Some s2 => (Some callId, s2)
  | None =>
      (None, update_call callId
               (λ c, call_fail ("Error: " +:+ send_unavailable) now
                       (call_fail send_unavailable now c)) s1)
  end.

(** The completion callback handed to [sip.send] with an INVITE (lines
    489-499) or a re-authenticated INVITE (lines 556-566); [err] is its
    argument rendered by [String(error)]. *)
Definition inviteSent (callId : string) (err : option string) (now : nat)
    (s : State) : State :=
  match err with
  | Some e => update_call callId (call_fail e now) s
  | None => update_call callId (call_set_status ringing) s
  end.

Section CallsWithDigest.
Context (D : Digest).

(** [reInviteWithAuth(call, authResponse)], lines 510-573. *)
Definition reInviteWithAuth (id : string) (call : SIPCall) (authResponse : Message)
    (now : nat) (s : State) : State :=
  match dialog call ≫= λ d, (λ inv, (d, inv)) <$> inviteRequest d with
  | None =>
      update_call id (call_fail "Cannot re-authenticate without original INVITE" now) s
  | Some (d, inv) =>
      match challenge D [] authResponse with
      | inl e => update_call id (call_fail ("Authentication failed: " +:+ e) now) s
      | inr session =>
          let d1 := dialog_set_cseq (S (cseq d)) d in
          let reInviteRequest := request_set_seq (cseq d1) inv in
          match signRequest D session reInviteRequest (sipUsername (env s))
                  (sipPassword (env s)) with
          | inl e =>
              update_call id
                (λ c, call_fail ("Authentication failed: " +:+ e) now
                        (call_set_dialog d1 c)) s
          | inr (_, h) =>
              let signed := request_set_authorization h reInviteRequest in
              let d2 := dialog_set_inviteRequest signed d1 in
              let s1 := update_call id (call_set_dialog d2) s in
              match sip_send (OutRequest signed) s1 with
              | Some s2 => s2
              | None => update_call id (call_fail send_unavailable now) s1
              end
          end
      end
  end.

(** [sendAck(call, inviteResponse)], lines 812-840; everything it throws is
    caught and logged. *)
Definition sendAck (call : SIPCall) (inviteResponse : Message) (s : State) : State :=
  let h := m_headers inviteResponse in
  let ack : option Request :=
    uriv ← contact_or h (h_from h);
    cs ← h_cseq h;
    via ← match dialog call with
          | None => Some (h_via h)
          | Some d => r_via <$> inviteRequest d
          end;
    Some {| method := "ACK"; r_uri := uriv; r_to := h_to h; r_from := h_from h;
            r_call_id := callId call;
            r_cseq := {| cs_method := "ACK"; cs_seq := cs_seq cs |};
            r_contact := []; r_expires := None; r_content_type := None;
            r_via := via; r_authorization := None; r_content := None |} in
  match ack ≫= λ r, sip_send (OutRequest r) s with
  | Some s1 => s1
  | None => s
  end.

Definition byeRequest (id uriv : string) (d : SIPDialog) (inv : Request) : Request :=
  {| method := "BYE"; r_uri := uriv; r_to := remote d; r_from := local d;
     r_call_id := id;
     r_cseq := {| cs_method := "BYE"; cs_seq := cseq d + 1 |};
     r_contact := []; r_expires := None; r_content_type := None;
     r_via := r_via inv; r_authorization := None; r_content := None |}.

Definition cancelRequest (id : string) (inv : Request) : Request :=
  {| method := "CANCEL"; r_uri := r_uri inv; r_to := r_to inv; r_from := r_from inv;
     r_call_id := id;
     r_cseq := {| cs_method := "CANCEL"; cs_seq := cs_seq (r_cseq inv) |};
     r_contact := []; r_expires := None; r_content_type := None;
     r_via := r_via inv; r_authorization := None; r_content := None |}.

Definition infoRequest (id uriv digits : string) (d : SIPDialog) (inv : Request) : Request :=
  {| method := "INFO"; r_uri := uriv; r_to := remote d; r_from := local d;
     r_call_id := id;
     r_cseq := {| cs_method := "INFO"; cs_seq := cseq d + 1 |};
     r_contact := []; r_expires := None;
     r_content_type := Some "application/dtmf-relay";
     r_via := r_via inv; r_authorization := None;
     r_content := Some ("Signal=" +:+ digits +:+ CRLF +:+ "Duration=100") |}.

(** The [try] block of [hangup] up to the status assignment: the state
    after the termination message, if any, was handed to [sip.send];
    [None] when building or sending it throws. *)
Definition hangup_send (id : string) (call : SIPCall) (s : State) : option State :=
  match status call, dialog call ≫= λ d, (λ r, (d, r)) <$> lastResponse d with
  | answered, Some (d, r) =>
      uriv ← contact_or (m_headers r) (remote d);
      inv ← inviteRequest d;
      sip_send (OutRequest (byeRequest id uriv d inv)) s
  | st, _ =>
      if bool_decide (st = ringing ∨ st = initiating) then
        match dialog call ≫= inviteRequest with
        | Some inv => sip_send (OutRequest (cancelRequest id inv)) s
        | None => Some s
        end
      else Some s
  end.

(** [hangup(callId)], lines 575-641. *)
Definition hangup (id : string) (now : nat) (s : State) : bool * State :=
  match activeCalls s !! id with
  | None => (false, s)
  | Some call =>
      match hangup_send id call s with
      | Some s1 => (true, update_call id (call_end now) s1)
      | None => (false, s)
      end
  end.

(** [sendDTMF(callId, digits)], lines 643-684. *)
Definition sendDTMF (id digits : string) (s : State) : bool * State :=
  match activeCalls s !! id with
  | None => (false, s)
  | Some call =>
      match dialog call with
      | None => (false, s)
      | Some d =>
          if negb (bool_decide (status call = answered)) then (false, s) else
          let built : option Request :=
            r ← lastResponse d;
            uriv ← contact_or (m_headers r) (remote d);
            inv ← inviteRequest d;
            Some (infoRequest id uriv digits d inv) in
          match built with
          | None => (false, s)
          | Some req =>
              let s1 := update_call id
                          (call_set_dialog (dialog_set_cseq (S (cseq d)) d)) s in
              match sip_send (OutRequest req) s1 with
              | Some s2 => (true, s2)
              | None => (false, s1)
              end
          end
      end
  end.

(** ** Inbound Message Router *)

(** [handleIncomingMessage(message)], lines 694-782.  A [TypeError] raised
    by reading [.method] of a missing CSeq header leaves the handler
    before any assignment. *)
Definition handleIncomingMessage (message : Message) (now : nat) (s : State) : State :=
  match m_status message with
  | None | Some 0%nat => s
  | Some st =>
      let h := m_headers message in
      let id := h_call_id h in
      if bool_decide (cs_method <$> h_cseq h = Some "REGISTER") then
        if bool_decide (st = 401 ∨ st = 407)%nat then
          match challenge D (as_material (authSession s)) message with
          | inl _ => s
          | inr m =>
              register D (Some message)
                (set_authSession
                   {| as_callId := as_callId (authSession s);
                      as_tag := as_tag (authSession s);
                      as_cseq := as_cseq (authSession s);
                      as_material := m |} s)
          end
        else if bool_decide (st = 200)%nat then
          let s1 := set_flags (initialized s) true s in
          match registrationResolve s1 with
          | Some f => settle (apply_resolve f (futures s1)) s1
          | None => s1
          end
        else
          match registrationReject s with
          | Some f =>
              settle (apply_reject f
                        ("Registration failed with status " +:+ pretty st)
                        (futures s)) s
          | None => s
          end
      else
        match activeCalls s !! id with
        | None => s
        | Some call =>
            if bool_decide (st = 100)%nat then s
            else if bool_decide (st = 180 ∨ st = 183)%nat then
              update_call id (call_set_status ringing) s
            else if bool_decide (st = 200)%nat then
              match h_cseq h with
              | None => s
              | Some cs =>
                  if bool_decide (cs_method cs = "INVITE") then
                    let call1 :=
                      match dialog call with
                      | Some d => call_set_dialog (dialog_answer message d)
                                    (call_set_status answered call)
                      | None => call_set_status answered call
                      end in
                    sendAck call1 message (update_call id (λ _, call1) s)
                  else s
              end
            else if bool_decide (st = 401 ∨ st = 407)%nat then
              match h_cseq h with
              | None => s
              | Some cs =>
                  if bool_decide (cs_method cs = "INVITE")
                  then reInviteWithAuth id call message now s
                  else s
              end
            else if bool_decide (st = 486)%nat then
              update_call id (λ c, call_set_endTime now
                                     (call_set_error "Busy" (call_set_status ended c))) s
            else if bool_decide (st = 487)%nat then
              update_call id (call_end now) s
            else if (400 <=? st)%nat then
              update_call id (call_fail (pretty st +:+ " " +:+ m_reason message) now) s
            else s
        end
  end.

(** [handleIncomingRequest(request)], lines 784-810.  The [TypeError] of a
    missing [sip.send] escapes the handler after the call was marked. *)
Definition handleIncomingRequest (request : Message) (now : nat) (s : State) : State :=
  if bool_decide (m_method request = Some "BYE") then
    let id := h_call_id (m_headers request) in
    let s1 := update_call id (call_end now) s in
    match sip_send (OutOk 200 "OK" (m_headers request)) s1 with
    | Some s2 => s2
    | None => s1
    end
  else s.

(** [shutdown()], lines 861-874: hang up every call in insertion order,
    then clear the two flags. *)
Definition shutdown (now : nat) (s : State) : State :=
  let s1 := foldl (λ acc id, snd (hangup id now acc)) s (callOrder s) in
  set_flags false false s1.

End CallsWithDigest.

(** [getCallStatus(callId)] *)
Definition getCallStatus (id : string) (s : State) : option SIPCall :=
  activeCalls s !! id.

(** ** The event loop *)

(** What the event loop can deliver to the service: calls of the public
    operations, inbound messages, timer expiries, send completions, and a
    change of the transport module ([sip.send] appearing or vanishing). *)
Inductive Event :=
| EInitialize (start_ok : bool)
| ERegistrationTimer (f : nat)
| ETransport (avail : bool)
| EMakeCall (toNumber callId tag branch : string) (now sessionId : nat)
| EInviteSent (callId : string) (err : option string) (now : nat)
| EMessage (m : Message) (now : nat)
| ERequest (m : Message) (now : nat)
| EHangup (callId : string) (now : nat)
| ESendDTMF (callId digits : string)
| EShutdown (now : nat).

Definition step (D : Digest) (ev : Event) (s : State) : State :=
  match ev with
  | EInitialize ok => initialize D ok s
  | ERegistrationTimer f => registrationTimer D f s
  | ETransport b => set_stack b (globalSipStarted s) s
  | EMakeCall n id t b now sid => snd (makeCall n id t b now sid s)
  | EInviteSent id err now => inviteSent id err now s
  | EMessage m now => handleIncomingMessage D m now s
  | ERequest m now => handleIncomingRequest m now s
  | EHangup id now => snd (hangup id now s)
  | ESendDTMF id digits => snd (sendDTMF id digits s)
  | EShutdown now => shutdown now s
  end.

Definition run (D : Digest) (evs : list Event) (s : State) : State :=
  foldl (λ acc ev, step D ev acc) s evs.

(** The service object right after construction (lines 42-75). *)
Definition initial (e : Env) : State :=
  {| env := e; sip_send_available := false; globalSipStarted := false;
     initialized := false; registered := false;
     activeCalls := ∅; callOrder := [];
     authSession := {| as_callId := None; as_tag := None; as_cseq := None;
                       as_material := [] |};
     clientPort := 7060; transport := "UDP";
     registrationPromise := None; registrationResolve := None;
     registrationReject := None;
     registrationAttempts := 0; maxRegistrationAttempts := 3;
     futures := []; timers := []; sent := [] |}.

(** [randomUUID()] never repeats a call-id: an event is admissible when the
    call-id drawn by [makeCall] is not tracked yet. *)
Definition fresh_ids (s : State) (ev : Event) : Prop :=
  match ev with
  | EMakeCall _ id _ _ _ _ => activeCalls s !! id = None
  | _ => True
  end.

Inductive reachable (D : Digest) (e : Env) : State → Prop :=
| reach_initial : reachable D e (initial e)
| reach_step s ev :
    reachable D e s → fresh_ids s ev → reachable D e (step D ev s).

(** ** Concrete collaborators and messages used by the examples *)

Definition demo_digest : Digest :=
  {| challenge := λ _ _, inr [("realm", "vono2.me"); ("nonce", "abc")];
     signRequest := λ m _ user _, inr (m, "Digest username=" +:+ user) |}.

Definition demo_env : Env :=
  {| sipUsername := "alice"; sipPassword := "secret"; sipServer := "vono2.me";
     sipPort := 5060; cfg_fromNumber := "5511999990000";
     localIP := "127.0.0.1"; publicIP := "203.0.113.7";
     NODE_ENV := Some "production"; SIP_USE_TCP := None;
     FALEVONO_SIP_PORT := 7060;
     uuid_register_callId := "reg-call"; uuid_register_tag := "reg-tag" |}.

(** A response with status [st] to a request of method [m] on dialog [id]. *)
Definition response (st : nat) (reason m id : string) (contact : list string) : Message :=
  {| m_method := None; m_status := Some st; m_reason := reason;
     m_headers :=
       {| h_to := Some {| uri := "sip:15550123456@vono2.me"; tag := Some "far" |};
          h_from := Some {| uri := "sip:alice@vono2.me"; tag := Some "t1" |};
          h_call_id := id;
          h_cseq := Some {| cs_method := m; cs_seq := 1 |};
          h_contact := contact;
          h_via := [] |} |}.

Definition bye_request (id : string) : Message :=
  {| m_method := Some "BYE"; m_status := None; m_reason := "";
     m_headers :=
       {| h_to := Some {| uri := "sip:alice@vono2.me"; tag := Some "t1" |};
          h_from := Some {| uri := "sip:15550123456@vono2.me"; tag := Some "far" |};
          h_call_id := id;
          h_cseq := Some {| cs_method := "BYE"; cs_seq := 7 |};
          h_contact := [];
          h_via := [] |} |}.

(** Initialise, get registered, place a call whose INVITE is sent. *)
Definition placed_call : list Event :=
  [ EInitialize true;
    EMessage (response 200 "OK" "REGISTER" "reg-call" []) 1;
    EMakeCall "+1 (555) 012-3456" "c1" "t1" "b1" 2 2;
    EInviteSent "c1" None 3 ].

Definition status_of (id : string) (s : State) : option Status :=
  status <$> getCallStatus id s.

(** Methods and sequence numbers of the requests sent on dialog [id]. *)
Definition requests_of (id : string) (l : list Outbound) : list (string * nat) :=
  omap (λ o, match o with
             | OutRequest r =>
                 if bool_decide (r_call_id r = id)
                 then Some (method r, cs_seq (r_cseq r)) else None
             | OutOk _ _ _ => None
             end) l.

(** ** Address configuration *)

(** An entry of [os.networkInterfaces()]; [family] is a string, or a
    number in the Node releases that report [4] and [6]. *)
Inductive Family := FamilyName (name : string) | FamilyNumber (n : N).

Record InterfaceInfo := {
  if_family : Family; if_internal : bool; if_address : string }.

(** [typeof entry.family === 'string' ? entry.family
                                      : entry.family === 4 ? 'IPv4' : ''] *)
Definition family_name (f : Family) : string :=
  match f with
  | FamilyName name => name
  | FamilyNumber n => if bool_decide (n = 4%N) then "IPv4" else ""
  end.

(** The inner loop of [detectFirstExternalIPv4], lines 84-90; a missing
    entry is skipped. *)
Fixpoint first_external (entries : list (option InterfaceInfo)) : option string :=
  match entries with
  | [] => None
  | None :: r => first_external r
  | Some entry :: r =>
      if bool_decide (family_name (if_family entry) = "IPv4") && negb (if_internal entry)
      then Some (if_address entry)
      else first_external r
  end.

(** [detectFirstExternalIPv4()], lines 77-94; the argument is
    [networkInterfaces()] in key order, [None] for an interface without
    entries. *)
Fixpoint detectFirstExternalIPv4
    (interfaces : list (string * option (list (option InterfaceInfo)))) : option string :=
  match interfaces with
  | [] => None
  | (_, None) :: r => detectFirstExternalIPv4 r
  | (_, Some entries) :: r =>
      match first_external entries with
      | Some a => Some a
      | None => detectFirstExternalIPv4 r
      end
  end.

(** A character class [[lo-hi]]. *)
Definition in_range (lo hi a : ascii) : bool :=
  (Ascii.nat_of_ascii lo <=? Ascii.nat_of_ascii a)%nat
  && (Ascii.nat_of_ascii a <=? Ascii.nat_of_ascii hi)%nat.

(** [/^172\.(1[6-9]|2\d|3[0-1])\./.test(ip)] *)
Definition matches_172 (ip : string) : bool :=
  String.prefix "172." ip
  && match String.get 4 ip, String.get 5 ip, String.get 6 ip with
     | Some a, Some b, Some c =>
         ((Ascii.eqb a "1" && in_range "6" "9" b)
          || (Ascii.eqb a "2" && is_digit b)
          || (Ascii.eqb a "3" && in_range "0" "1" b))
         && Ascii.eqb c "."
     | _, _, _ => false
     end.

(** [isPrivateIPv4(ip)], lines 96-103. *)
Definition isPrivateIPv4 (ip : string) : bool :=
  bool_decide (ip = "127.0.0.1")
  || String.prefix "10." ip
  || String.prefix "192.168." ip
  || matches_172 ip.

(** [this.localIP] and [this.publicIP]. *)
Record IpConfig := { cfg_localIP : string; cfg_publicIP : string }.

(** A string used as a condition: [undefined] and [''] are falsy. *)
Definition truthy (o : option string) : option string :=
  match o with
  | Some "" => None
  | _ => o
  end.

(** The two assignments of the constructor, lines 73-74.  [envLocal] and
    [envPublic] are [process.env.FALEVONO_LOCAL_IP?.trim()] and
    [process.env.FALEVONO_PUBLIC_IP?.trim()]. *)
Definition constructor_ips (envLocal envPublic : option string) : IpConfig :=
  let l := default "127.0.0.1" (truthy envLocal) in
  {| cfg_localIP := l; cfg_publicIP := default l (truthy envPublic) |}.

(** [configureIpAddresses()], lines 105-144.  [hostname] is the outcome of
    [hostname -I]: [None] when the command fails, otherwise the trimmed
    fields of its output.  The boolean tells whether the private-range
    warning was logged. *)
Definition configureIpAddresses (envLocal envPublic : option string)
    (interfaces : list (string * option (list (option InterfaceInfo))))
    (hostname : option (list string)) (cur : IpConfig) : IpConfig * bool :=
  let l :=
    match truthy envLocal with
    | Some v => v
    | None =>
        match truthy (detectFirstExternalIPv4 interfaces) with
        | Some autoDetected => autoDetected
        | None =>
            match hostname with
            | Some parts =>
                match truthy (head (filter (λ part, bool_decide (0 < String.length part)%nat)
                                           parts)) with
                | Some firstIp => firstIp
                | None => cfg_localIP cur
                end
            | None => cfg_localIP cur
            end
        end
    end in
  match truthy envPublic with
  | Some v => ({| cfg_localIP := l; cfg_publicIP := v |}, false)
  | None =>
      match truthy envLocal with
      | Some v =>
          if negb (isPrivateIPv4 v)
          then ({| cfg_localIP := l; cfg_publicIP := v |}, false)
          else if negb (isPrivateIPv4 l)
          then ({| cfg_localIP := l; cfg_publicIP := l |}, false)
          else ({| cfg_localIP := l; cfg_publicIP := l |}, true)
      | None =>
          if negb (isPrivateIPv4 l)
          then ({| cfg_localIP := l; cfg_publicIP := l |}, false)
          else ({| cfg_localIP := l; cfg_publicIP := l |}, true)
      end
  end.

(** ** Reading the call table *)


(** ** Vocabulary of the properties *)


(** The registration side of the state. *)
Definition reg_view (s : State) :=
  (env s, authSession s, registrationAttempts s, maxRegistrationAttempts s,
   futures s, timers s, registrationPromise s, registrationResolve s,
   registrationReject s).

(** The call side of the state. *)
Definition call_view (s : State) := (activeCalls s, callOrder s).

(** A tracked call keeps its identity and the INVITE it was placed with. *)
Definition call_wf (id : string) (c : SIPCall) : Prop :=
  callId c = id
  ∧ ∃ d inv, dialog c = Some d ∧ inviteRequest d = Some inv
             ∧ method inv = "INVITE" ∧ r_call_id inv = id
             ∧ (1 ≤ cs_seq (r_cseq inv))%nat ∧ (cs_seq (r_cseq inv) ≤ cseq d)%nat.

Definition calls_wf (s : State) : Prop :=
  ∀ id c, activeCalls s !! id = Some c → call_wf id c.

(** Two states track the same call-ids, in the same order. *)
Definition same_dom (s s' : State) : Prop :=
  callOrder s' = callOrder s
  ∧ ∀ id, is_Some (activeCalls s' !! id) ↔ is_Some (activeCalls s !! id).





Definition futures_inv (s : State) : Prop :=
  ∀ f c, futures s !! f = Some c →
         (resolves c ≤ 1)%nat ∧ (registrationResolve s = Some f → resolves c = 0%nat).

(** [fresh_ids], decided. *)
Definition fresh_idsb (s : State) (ev : Event) : bool :=
  match ev with
  | EMakeCall _ id _ _ _ _ => bool_decide (activeCalls s !! id = None)
  | _ => true
  end.

Fixpoint fresh_runb (D : Digest) (s : State) (evs : list Event) : bool :=
  match evs with
  | [] => true
  | ev :: r => fresh_idsb s ev && fresh_runb D (step D ev s) r
  end.

(** ** More states and messages used by the examples *)

(** Registered, no call yet. *)
Definition ready_events : list Event :=
  [ EInitialize true;
    EMessage (response 200 "OK" "REGISTER" "reg-call" []) 1 ].

Definition ready : State := run demo_digest ready_events (initial demo_env).

(** Started, REGISTER sent, no answer yet. *)
Definition registering : State := run demo_digest [ EInitialize true ] (initial demo_env).

(** One call, ringing. *)
Definition ringing_state : State := run demo_digest placed_call (initial demo_env).

Definition ok_invite : Message :=
  response 200 "OK" "INVITE" "c1" ["sip:15550123456@198.51.100.2:5060"].

(** One call, answered. *)
Definition talking_events : list Event := placed_call ++ [ EMessage ok_invite 4 ].

Definition talking : State := run demo_digest talking_events (initial demo_env).

(** The same two states once [sip.send] has gone. *)
Definition ringing_offline : State := step demo_digest (ETransport false) ringing_state.

Definition talking_offline : State := step demo_digest (ETransport false) talking.

(** A call that failed when it was placed: the stack was never started. *)
Definition failed_call : State :=
  snd (makeCall "911" "c9" "t9" "b9" 1 1 (initial demo_env)).

(** Third start-up without an answer from the registrar: the attempts are
    used up and the timer of the third promise is pending. *)
Definition stalled_events : list Event :=
  [ EInitialize true; ERegistrationTimer 0; EShutdown 5; EInitialize true ].

Definition stalled : State := run demo_digest stalled_events (initial demo_env).

Definition ringing_180 : Message := response 180 "Ringing" "INVITE" "c1" [].
Definition call_forwarded : Message := response 181 "Call Is Being Forwarded" "INVITE" "c1" [].
Definition not_found : Message := response 404 "Not Found" "INVITE" "c1" [].
Definition invite_challenge : Message := response 401 "Unauthorized" "INVITE" "c1" [].
Definition register_challenge : Message := response 401 "Unauthorized" "REGISTER" "reg-call" [].
Definition register_forbidden : Message := response 403 "Forbidden" "REGISTER" "reg-call" [].

(** A host with a loopback and one external interface. *)
Definition demo_interfaces : list (string * option (list (option InterfaceInfo))) :=
  [ ("lo", Some [ Some {| if_family := FamilyName "IPv4"; if_internal := true;
                          if_address := "127.0.0.1" |} ]);
    ("eth0", Some [ Some {| if_family := FamilyName "IPv6"; if_internal := false;
                            if_address := "fe80::1" |};
                    Some {| if_family := FamilyNumber 4; if_internal := false;
                            if_address := "172.20.0.5" |} ]) ].

(** * Properties *)

(** ** Basic facts about the state updates *)

Lemma lookup_update_call (id id' : string) (f : SIPCall → SIPCall) (s : State) :
  activeCalls (update_call id f s) !! id' =
  if decide (id = id') then f <$> activeCalls s !! id else activeCalls s !! id'.
Proof. unfold update_call; cbn. by rewrite lookup_alter. Qed.

Lemma lookup_update_call_eq (id : string) (f : SIPCall → SIPCall) (s : State) :
  activeCalls (update_call id f s) !! id = f <$> activeCalls s !! id.
Proof. rewrite lookup_update_call. by case_decide. Qed.

Lemma lookup_update_call_ne (id id' : string) (f : SIPCall → SIPCall) (s : State) :
  id ≠ id' → activeCalls (update_call id f s) !! id' = activeCalls s !! id'.
Proof. intros. rewrite lookup_update_call. by case_decide. Qed.

Lemma sent_update_call (id : string) (f : SIPCall → SIPCall) (s : State) :
  sent (update_call id f s) = sent s.
Proof. reflexivity. Qed.

Lemma sip_send_Some (m : Outbound) (s s' : State) :
  sip_send m s = Some s' →
  sip_send_available s = true ∧ s' = set_sent (sent s ++ [m]) s.
Proof. unfold sip_send. destruct (sip_send_available s); naive_solver. Qed.

Lemma sip_send_None (m : Outbound) (s : State) :
  sip_send m s = None → sip_send_available s = false.
Proof. unfold sip_send. by destruct (sip_send_available s). Qed.

Lemma sip_send_available_true (m : Outbound) (s : State) :
  sip_send_available s = true → sip_send m s = Some (set_sent (sent s ++ [m]) s).
Proof. unfold sip_send. by intros ->. Qed.


(** ** 486 Busy Here *)

(** The sentence of scenario E read on the code: a 486 on the INVITE
    transaction of a tracked call leaves it [failed] with error "Busy". *)
Definition busy_marks_failed : Prop :=
  ∀ (D : Digest) (s : State) (m : Message) (now : nat) (c : SIPCall),
    m_status m = Some 486%nat →
    cs_method <$> h_cseq (m_headers m) = Some "INVITE" →
    getCallStatus (h_call_id (m_headers m)) s = Some c →
    ∃ c', getCallStatus (h_call_id (m_headers m))
            (handleIncomingMessage D m now s) = Some c'
          ∧ status c' = failed ∧ error c' = Some "Busy".
(** C5, amended: a 486 response that does not belong to the REGISTER
    transaction marks the tracked call [ended] (not [failed]), stores the
    error text "Busy" and records the end time; the dialog is untouched
    and nothing is sent. *)
Theorem busy_ends_call (D : Digest) (s : State) (m : Message) (now : nat) (c : SIPCall) :
  m_status m = Some 486%nat →
  cs_method <$> h_cseq (m_headers m) ≠ Some "REGISTER" →
  getCallStatus (h_call_id (m_headers m)) s = Some c →
  ∃ c', getCallStatus (h_call_id (m_headers m))
          (handleIncomingMessage D m now s) = Some c'
        ∧ status c' = ended ∧ error c' = Some "Busy" ∧ endTime c' = Some now
        ∧ dialog c' = dialog c
        ∧ sent (handleIncomingMessage D m now s) = sent s.
Proof.
  intros Hst Hreg Hc. unfold getCallStatus in *.
  unfold handleIncomingMessage. rewrite Hst.
  rewrite bool_decide_eq_false_2 by done. rewrite Hc.
  repeat (case_bool_decide; try lia).
  rewrite lookup_update_call_eq, Hc. cbn. eauto 10.
Qed.
(** The state after [placed_call]: registered, one call, INVITE sent. *)
Definition placed : State := run demo_digest placed_call (initial demo_env).
Definition busy_here : Message := response 486 "Busy Here" "INVITE" "c1" [].
Lemma busy_ends_call_witness :
  ∃ c', getCallStatus (h_call_id (m_headers busy_here))
          (handleIncomingMessage demo_digest busy_here 9 placed) = Some c'
        ∧ status c' = ended ∧ error c' = Some "Busy" ∧ endTime c' = Some 9%nat.
Proof.
  destruct (getCallStatus (h_call_id (m_headers busy_here)) placed) as [c|] eqn:E;
    [|vm_compute in E; discriminate E].
  assert (cs_method <$> h_cseq (m_headers busy_here) ≠ Some "REGISTER") as H0
    by (vm_compute; discriminate).
  destruct (busy_ends_call demo_digest placed busy_here 9 c eq_refl H0 E)
    as (c' & H1 & H2 & H3 & H4 & _).
  exact (ex_intro _ c' (conj H1 (conj H2 (conj H3 H4)))).
Defined.
Lemma busy_marks_failed_counterexample : ¬ busy_marks_failed.
Proof.
  intros H.
  destruct (getCallStatus (h_call_id (m_headers busy_here)) placed) as [c|] eqn:E;
    [|vm_compute in E; discriminate E].
  destruct (H demo_digest placed busy_here 9 c eq_refl eq_refl E) as (c' & H1 & H2 & _).
  assert (status <$> getCallStatus (h_call_id (m_headers busy_here))
            (handleIncomingMessage demo_digest busy_here 9 placed) = Some ended) as X
    by (vm_compute; reflexivity).
  rewrite H1 in X. cbn in X. congruence.
Qed.

(** * Further properties of the service *)

(** ** Placing a call *)


(** [makeCall] always tracks the new call under its call-id, with the
    cleaned number, and leaves the other calls alone. *)
Lemma makeCall_lookup (n id t b : string) (now sid : nat) (s : State) :
  (∃ c, getCallStatus id (snd (makeCall n id t b now sid s)) = Some c
        ∧ callId c = id ∧ toNumber c = digits_only n
        ∧ fromNumber c = cfg_fromNumber (env s) ∧ startTime c = now)
  ∧ (∀ id', id' ≠ id →
       getCallStatus id' (snd (makeCall n id t b now sid s)) = getCallStatus id' s).
Proof.
  unfold getCallStatus, makeCall.
  destruct (sip_send _ _) as [s2|] eqn:E; cbn.
  - apply sip_send_Some in E as [_ ->]. cbn. split.
    + rewrite lookup_insert_eq. eexists. by repeat split.
    + intros id' Hne. by rewrite lookup_insert_ne.
  - split.
    + rewrite lookup_alter_eq. cbn. rewrite lookup_insert_eq. cbn.
      eexists. by repeat split.
    + intros id' Hne. rewrite lookup_alter_ne by done. cbn. by rewrite lookup_insert_ne.
Qed.



(** ** Hanging up *)

Lemma hangup_send_cases (id : string) (call : SIPCall) (s s1 : State) :
  hangup_send id call s = Some s1 →
  s1 = s
  ∨ ∃ r, s1 = set_sent (sent s ++ [OutRequest r])%list s ∧ r_call_id r = id
         ∧ sip_send_available s = true
         ∧ (method r = "BYE" ∨ method r = "CANCEL").
Proof.
  unfold hangup_send. intros H.
  destruct (status call) eqn:Est;
    destruct (dialog call) as [d|] eqn:Ed; cbn in H;
    try destruct (lastResponse d) as [r|] eqn:Er; cbn in H;
    try destruct (inviteRequest d) as [inv|] eqn:Ei; cbn in H;
    repeat case_bool_decide; try (left; congruence);
    try destruct (contact_or _ _) as [u|]; cbn in H; try discriminate;
    try (apply sip_send_Some in H as [? ->]; right; eexists; repeat split; eauto; fail);
    try (left; congruence); naive_solver.
Qed.

Lemma hangup_false (id : string) (now : nat) (s : State) :
  fst (hangup id now s) = false → snd (hangup id now s) = s.
Proof.
  unfold hangup.
  destruct (activeCalls s !! id) as [c|]; [|done].
  by destruct (hangup_send id c s).
Qed.

Lemma hangup_calls (id : string) (now : nat) (s : State) :
  activeCalls (snd (hangup id now s)) = activeCalls s
  ∨ activeCalls (snd (hangup id now s)) = alter (call_end now) id (activeCalls s).
Proof.
  unfold hangup.
  destruct (activeCalls s !! id) as [c|]; [|by left].
  destruct (hangup_send id c s) as [s1|] eqn:E; [|by left].
  right. by apply hangup_send_cases in E as [->|(r & -> & _)].
Qed.

Lemma hangup_true_lookup (id : string) (now : nat) (s : State) :
  fst (hangup id now s) = true →
  ∃ c, activeCalls s !! id = Some c
       ∧ activeCalls (snd (hangup id now s)) !! id = Some (call_end now c).
Proof.
  unfold hangup.
  destruct (activeCalls s !! id) as [c|] eqn:Ec; [|done].
  destruct (hangup_send id c s) as [s1|] eqn:E; [|done].
  intros _. exists c. split; [done|].
  apply hangup_send_cases in E as [->|(r & -> & _)];
    cbn; by rewrite lookup_alter_eq, Ec.
Qed.

Lemma hangup_other (id id' : string) (now : nat) (s : State) :
  id' ≠ id → activeCalls (snd (hangup id now s)) !! id' = activeCalls s !! id'.
Proof.
  intros Hne. destruct (hangup_calls id now s) as [-> | ->]; [done|].
  by rewrite lookup_alter_ne.
Qed.

Lemma hangup_sent (id : string) (now : nat) (s : State) :
  sent (snd (hangup id now s)) = sent s
  ∨ ∃ r, sent (snd (hangup id now s)) = (sent s ++ [OutRequest r])%list
         ∧ r_call_id r = id ∧ (method r = "BYE" ∨ method r = "CANCEL").
Proof.
  unfold hangup.
  destruct (activeCalls s !! id) as [c|]; [|by left].
  destruct (hangup_send id c s) as [s1|] eqn:E; [|by left].
  apply hangup_send_cases in E as [->|(r & -> & Hid & _ & Hm)]; [by left|].
  right. by exists r.
Qed.

(** X3: [hangup] either returns false and changes nothing, or returns
    true, marks the call [ended] with the end time set (error text and
    dialog kept), leaves every other call alone and hands at most one
    request to [sip.send], a BYE or a CANCEL carrying the call-id. *)
Theorem hangup_outcome (id : string) (now : nat) (s : State) :
  (fst (hangup id now s) = false ∧ snd (hangup id now s) = s)
  ∨ (fst (hangup id now s) = true
     ∧ (∃ c c', getCallStatus id s = Some c
          ∧ getCallStatus id (snd (hangup id now s)) = Some c'
          ∧ status c' = ended ∧ endTime c' = Some now
          ∧ error c' = error c ∧ dialog c' = dialog c)
     ∧ (∀ id', id' ≠ id →
          getCallStatus id' (snd (hangup id now s)) = getCallStatus id' s)
     ∧ (sent (snd (hangup id now s)) = sent s
        ∨ ∃ r, sent (snd (hangup id now s)) = (sent s ++ [OutRequest r])%list
               ∧ r_call_id r = id ∧ (method r = "BYE" ∨ method r = "CANCEL"))).
Proof.
  unfold getCallStatus.
  destruct (fst (hangup id now s)) eqn:E.
  - right. split; [done|].
    destruct (hangup_true_lookup id now s E) as (c & Hc & Hc').
    split; [|split].
    + exists c, (call_end now c). by repeat split.
    + intros id' Hne. by apply hangup_other.
    + apply hangup_sent.
  - left. split; [done|]. by apply hangup_false.
Qed.

(** X4: hanging up a call that is already [ended] or [failed] sends
    nothing and returns true, also when the transport is missing; the
    status becomes [ended] (a failed call does not stay failed), the end
    time is overwritten and the error text is kept. *)
Theorem hangup_finished_call (id : string) (now : nat) (s : State) (c : SIPCall) :
  getCallStatus id s = Some c →
  status c = ended ∨ status c = failed →
  fst (hangup id now s) = true
  ∧ sent (snd (hangup id now s)) = sent s
  ∧ ∃ c', getCallStatus id (snd (hangup id now s)) = Some c'
          ∧ status c' = ended ∧ endTime c' = Some now ∧ error c' = error c.
Proof.
  unfold getCallStatus, hangup, hangup_send. intros Hc Hst. rewrite Hc.
  destruct Hst as [Hst|Hst]; rewrite Hst; cbn;
    (destruct (dialog c ≫= _); cbn);
    rewrite bool_decide_eq_false_2 by (intros [?|?]; discriminate); cbn;
    rewrite lookup_alter_eq, Hc; cbn; eauto 10.
Qed.

(** X5: when [sip.send] is not a function, hanging up a call that would
    need a CANCEL (ringing or initiating, INVITE retained) or a BYE
    (answered, final response stored) returns false and changes nothing:
    the call keeps its status and is not marked ended. *)
Theorem hangup_without_transport (id : string) (now : nat) (s : State) (c : SIPCall) :
  getCallStatus id s = Some c →
  sip_send_available s = false →
  ((status c = ringing ∨ status c = initiating) ∧ is_Some (dialog c ≫= inviteRequest))
  ∨ (status c = answered ∧ is_Some (dialog c ≫= lastResponse)) →
  hangup id now s = (false, s).
Proof.
  unfold getCallStatus, hangup, hangup_send, sip_send. intros Hc Hs H. rewrite Hc, Hs.
  destruct H as [[Hst [inv Hi]]|[Hst [r Hr]]].
  - rewrite Hi.
    destruct Hst as [-> | ->]; (destruct (dialog c ≫= _) as [[??]|]; cbn; done).
  - rewrite Hst. destruct (dialog c) as [d|]; cbn in *; [|done].
    rewrite Hr. cbn. destruct (contact_or _ _); cbn; [|done].
    by destruct (inviteRequest d).
Qed.

(** ** DTMF *)

Lemma sendDTMF_true (id digits : string) (s s' : State) :
  sendDTMF id digits s = (true, s') ↔
  ∃ c d r u inv,
    activeCalls s !! id = Some c ∧ dialog c = Some d ∧ status c = answered
    ∧ lastResponse d = Some r ∧ contact_or (m_headers r) (remote d) = Some u
    ∧ inviteRequest d = Some inv ∧ sip_send_available s = true
    ∧ s' = set_sent (sent s ++ [OutRequest (infoRequest id u digits d inv)])%list
             (update_call id (call_set_dialog (dialog_set_cseq (S (cseq d)) d)) s).
Proof.
  unfold sendDTMF. split.
  - destruct (activeCalls s !! id) as [c|] eqn:Ec; [|done].
    destruct (dialog c) as [d|] eqn:Ed; [|done].
    case_bool_decide; cbn; [|done].
    destruct (lastResponse d) as [r|] eqn:Er; cbn; [|done].
    destruct (contact_or _ _) as [u|] eqn:Eu; cbn; [|done].
    destruct (inviteRequest d) as [inv|] eqn:Ei; cbn; [|done].
    unfold sip_send. cbn.
    destruct (sip_send_available s) eqn:E; [|done].
    intros [= <-]. by exists c, d, r, u, inv.
  - intros (c & d & r & u & inv & -> & -> & Hst & -> & Hu & -> & Hs & ->).
    rewrite bool_decide_eq_true_2 by done. cbn. rewrite Hu. cbn.
    unfold sip_send. cbn. by rewrite Hs.
Qed.

Lemma sendDTMF_false (id digits : string) (s s' : State) :
  sendDTMF id digits s = (false, s') →
  sent s' = sent s ∧ reg_view s' = reg_view s ∧ callOrder s' = callOrder s
  ∧ sip_send_available s' = sip_send_available s
  ∧ registered s' = registered s ∧ initialized s' = initialized s
  ∧ globalSipStarted s' = globalSipStarted s.
Proof.
  unfold sendDTMF. intros E.
  destruct (activeCalls s !! id) as [c|]; [|by simplify_eq].
  destruct (dialog c) as [d|]; [|by simplify_eq].
  case_bool_decide; cbn in E; [|by simplify_eq].
  destruct (lastResponse d) as [r|]; cbn in E; [|by simplify_eq].
  destruct (contact_or _ _) as [u|]; cbn in E; [|by simplify_eq].
  destruct (inviteRequest d) as [inv|]; cbn in E; [|by simplify_eq].
  unfold sip_send in E. cbn in E.
  destruct (sip_send_available s) eqn:Hs; by simplify_eq.
Qed.

(** X6: [sendDTMF] returns true only for a tracked call that is answered
    and has a dialog; it then hands exactly one INFO to [sip.send], with
    the call-id, the next sequence number of the dialog, content type
    application/dtmf-relay and the body [Signal=<digits>\r\nDuration=100],
    and advances the dialog counter by one.  When it returns false nothing
    was sent. *)
Theorem sendDTMF_outcome (id digits : string) (s : State) :
  (fst (sendDTMF id digits s) = false ∧ sent (snd (sendDTMF id digits s)) = sent s)
  ∨ (fst (sendDTMF id digits s) = true
     ∧ ∃ (c c' : SIPCall) (d d' : SIPDialog) (r : Request),
         getCallStatus id s = Some c ∧ status c = answered ∧ dialog c = Some d
         ∧ sent (snd (sendDTMF id digits s)) = (sent s ++ [OutRequest r])%list
         ∧ method r = "INFO" ∧ r_call_id r = id
         ∧ cs_seq (r_cseq r) = (cseq d + 1)%nat
         ∧ r_content_type r = Some "application/dtmf-relay"
         ∧ r_content r = Some ("Signal=" +:+ digits +:+ CRLF +:+ "Duration=100")
         ∧ getCallStatus id (snd (sendDTMF id digits s)) = Some c'
         ∧ status c' = answered ∧ dialog c' = Some d'
         ∧ cseq d' = (cseq d + 1)%nat).
Proof.
  destruct (sendDTMF id digits s) as [[|] s'] eqn:E; cbn.
  - right. split; [done|].
    apply sendDTMF_true in E as (c & d & r & u & inv & Hc & Hd & Hst & Hr & Hu & Hi & Hs & ->).
    unfold getCallStatus. cbn. rewrite lookup_alter_eq, Hc. cbn.
    exists c. eexists. exists d. eexists. eexists.
    repeat split; eauto. cbn. lia.
  - left. split; [done|]. by apply sendDTMF_false in E as (-> & _).
Qed.

(** X7: when [sip.send] is not a function, [sendDTMF] on an answered
    call whose INFO could be built returns false and sends nothing, yet
    the dialog counter has already been advanced: the failed attempt
    consumes a sequence number. *)
Theorem sendDTMF_without_transport (id digits : string) (s : State)
    (c : SIPCall) (d : SIPDialog) :
  getCallStatus id s = Some c → status c = answered → dialog c = Some d →
  is_Some (lastResponse d ≫= λ r, contact_or (m_headers r) (remote d)) →
  is_Some (inviteRequest d) →
  sip_send_available s = false →
  fst (sendDTMF id digits s) = false
  ∧ sent (snd (sendDTMF id digits s)) = sent s
  ∧ ∃ c' d', getCallStatus id (snd (sendDTMF id digits s)) = Some c'
             ∧ dialog c' = Some d' ∧ cseq d' = S (cseq d).
Proof.
  unfold getCallStatus, sendDTMF, sip_send.
  intros Hc Hst Hd [u Hu] [inv Hi] Hs. rewrite Hc, Hd.
  rewrite bool_decide_eq_true_2 by done. cbn.
  destruct (lastResponse d) as [r|]; cbn in *; [|done].
  rewrite Hu, Hi. cbn. rewrite Hs. cbn.
  rewrite lookup_alter_eq, Hc. cbn. eauto 10.
Qed.

(** ** Inbound requests *)

(** X8: an inbound BYE marks the call with that call-id [ended], with
    the end time set, whatever its state and without looking at the
    dialog tags; a BYE for an unknown call-id creates no call.  In both
    cases a 200 OK that mirrors the headers of the BYE is handed to
    [sip.send], when that is available. *)
Theorem bye_ends_call_and_is_answered (request : Message) (now : nat) (s : State) :
  m_method request = Some "BYE" →
  sent (handleIncomingRequest request now s)
  = (if sip_send_available s
     then (sent s ++ [OutOk 200 "OK" (m_headers request)])%list else sent s)
  ∧ (∀ c, getCallStatus (h_call_id (m_headers request)) s = Some c →
       ∃ c', getCallStatus (h_call_id (m_headers request))
               (handleIncomingRequest request now s) = Some c'
             ∧ status c' = ended ∧ endTime c' = Some now
             ∧ error c' = error c ∧ dialog c' = dialog c)
  ∧ (∀ id, getCallStatus id s = None →
       getCallStatus id (handleIncomingRequest request now s) = None)
  ∧ (∀ id, id ≠ h_call_id (m_headers request) →
       getCallStatus id (handleIncomingRequest request now s) = getCallStatus id s).
Proof.
  intros Hm. unfold handleIncomingRequest, getCallStatus, sip_send.
  rewrite bool_decide_eq_true_2 by done. cbn.
  destruct (sip_send_available s); cbn.
  all: split; [done|]; split; [|split].
  all: try (intros c Hc; rewrite lookup_alter_eq, Hc; cbn; eauto 10).
  all: try (intros id Hne; by rewrite lookup_alter_ne).
  all: intros id Hn; destruct (decide (h_call_id (m_headers request) = id)) as [->|Hne];
    [by rewrite lookup_alter_eq, Hn | by rewrite lookup_alter_ne].
Qed.

(** ** Inbound responses *)

Lemma register_frame (D : Digest) (a : option Message) (s : State) :
  activeCalls (register D a s) = activeCalls s
  ∧ callOrder (register D a s) = callOrder s
  ∧ futures (register D a s) = futures s
  ∧ timers (register D a s) = timers s
  ∧ registered (register D a s) = registered s
  ∧ initialized (register D a s) = initialized s
  ∧ registrationResolve (register D a s) = registrationResolve s
  ∧ registrationReject (register D a s) = registrationReject s
  ∧ registrationPromise (register D a s) = registrationPromise s
  ∧ env (register D a s) = env s
  ∧ sip_send_available (register D a s) = sip_send_available s
  ∧ globalSipStarted (register D a s) = globalSipStarted s
  ∧ transport (register D a s) = transport s
  ∧ clientPort (register D a s) = clientPort s
  ∧ maxRegistrationAttempts (register D a s) = maxRegistrationAttempts s.
Proof.
  unfold register, sip_send.
  destruct a as [m|]; cbn.
  - destruct (signRequest D _ _ _ _) as [e|[m' h]]; cbn; [repeat split|].
    destruct (sip_send_available s) eqn:E; cbn; repeat split; done.
  - destruct (sip_send_available s) eqn:E; cbn; repeat split; done.
Qed.

(** Responses are routed by the method of their CSeq header: a REGISTER
    response never touches a call, any other response never touches the
    registration. *)
Lemma responses_are_routed_by_cseq_method (D : Digest) (m : Message) (now : nat)
    (s : State) :
  (cs_method <$> h_cseq (m_headers m) = Some "REGISTER" →
     activeCalls (handleIncomingMessage D m now s) = activeCalls s)
  ∧ (cs_method <$> h_cseq (m_headers m) ≠ Some "REGISTER" →
     registered (handleIncomingMessage D m now s) = registered s
     ∧ futures (handleIncomingMessage D m now s) = futures s
     ∧ registrationResolve (handleIncomingMessage D m now s) = registrationResolve s
     ∧ registrationReject (handleIncomingMessage D m now s) = registrationReject s
     ∧ registrationAttempts (handleIncomingMessage D m now s) = registrationAttempts s
     ∧ authSession (handleIncomingMessage D m now s) = authSession s).
Proof.
  unfold handleIncomingMessage. split; intros Hr.
  - destruct (m_status m) as [[|st]|]; [done| |done].
    rewrite bool_decide_eq_true_2 by done.
    repeat case_bool_decide.
    + destruct (challenge D _ _); [done|].
      by destruct (register_frame D (Some m)
        (set_authSession
           {| as_callId := as_callId (authSession s); as_tag := as_tag (authSession s);
              as_cseq := as_cseq (authSession s); as_material := a |} s)) as [-> _].
    + cbn. by destruct (registrationResolve s).
    + by destruct (registrationReject s).
  - destruct (m_status m) as [[|st]|]; [done| |done].
    rewrite bool_decide_eq_false_2 by done.
    destruct (activeCalls s !! _) as [c|]; [|done].
    repeat case_bool_decide; try done.
    + destruct (h_cseq (m_headers m)) as [cs|]; [|done].
      case_bool_decide; [|done]. unfold sendAck, sip_send.
      destruct (_ ≫= _) as [?|] eqn:E; [|done].
      apply bind_Some in E as (r & _ & E).
      by destruct (sip_send_available _); simplify_eq.
    + destruct (h_cseq (m_headers m)) as [cs|]; [|done].
      case_bool_decide; [|done]. unfold reInviteWithAuth, sip_send.
      destruct (_ ≫= _) as [[d inv]|]; [|done].
      destruct (challenge D _ _) as [e|ses]; [done|].
      destruct (signRequest D _ _ _ _) as [e|[? h]]; [done|].
      cbn. by destruct (sip_send_available s).
    + by destruct (_ <=? _)%nat.
Qed.

(** X9: outside the REGISTER transaction the service ignores, without
    any change of state, (a) every response below 400 other than 180, 183
    and 200, such as 100 Trying, 181 or a 3xx redirect, and (b) a 200, 401
    or 407 whose CSeq method is not INVITE, such as the answer to a BYE
    or an INFO. *)
Theorem ignored_responses (D : Digest) (m : Message) (now : nat) (s : State) (st : nat) :
  m_status m = Some st →
  cs_method <$> h_cseq (m_headers m) ≠ Some "REGISTER" →
  ((st < 400)%nat ∧ st ≠ 180%nat ∧ st ≠ 183%nat ∧ st ≠ 200%nat)
  ∨ ((st = 200%nat ∨ st = 401%nat ∨ st = 407%nat)
     ∧ cs_method <$> h_cseq (m_headers m) ≠ Some "INVITE") →
  handleIncomingMessage D m now s = s.
Proof.
  unfold handleIncomingMessage. intros -> Hr Hc.
  destruct st as [|st]; [done|].
  rewrite bool_decide_eq_false_2 by done.
  destruct (activeCalls s !! _) as [c|]; [|done].
  destruct Hc as [(Hlt & H1 & H2 & H3)|[Hst Hi]].
  - repeat (case_bool_decide; try lia); try done.
    destruct (Nat.leb_spec 400 (S st)); [lia|done].
  - destruct (h_cseq (m_headers m)) as [cs|]; cbn in Hi;
      repeat (case_bool_decide; try lia); try done; congruence.
Qed.

(** X10: a response of 400 or more, other than 401, 407, 486 and 487,
    that does not belong to the REGISTER transaction marks the tracked
    call [failed], with the error text "<status> <reason>" and the end
    time set; the dialog is kept and nothing is sent. *)
Theorem error_response_fails_call (D : Digest) (m : Message) (now : nat) (s : State)
    (st : nat) (c : SIPCall) :
  m_status m = Some st →
  cs_method <$> h_cseq (m_headers m) ≠ Some "REGISTER" →
  getCallStatus (h_call_id (m_headers m)) s = Some c →
  (400 ≤ st)%nat → st ≠ 401%nat → st ≠ 407%nat → st ≠ 486%nat → st ≠ 487%nat →
  ∃ c', getCallStatus (h_call_id (m_headers m)) (handleIncomingMessage D m now s) = Some c'
        ∧ status c' = failed
        ∧ error c' = Some (pretty st +:+ " " +:+ m_reason m)
        ∧ endTime c' = Some now
        ∧ dialog c' = dialog c
        ∧ sent (handleIncomingMessage D m now s) = sent s.
Proof.
  unfold getCallStatus, handleIncomingMessage. intros -> Hr Hc Hge H1 H2 H3 H4.
  destruct st as [|st]; [lia|].
  rewrite bool_decide_eq_false_2 by done. rewrite Hc.
  repeat (case_bool_decide; try lia).
  destruct (Nat.leb_spec 400 (S st)); [|lia].
  rewrite lookup_update_call_eq, Hc. cbn. eauto 10.
Qed.


(** X12: the handler has no guard on the current state.  After a
    successful [hangup], a late 180 or 183 for the same call-id puts the
    call back to [ringing], while the end time recorded by the hang-up
    stays. *)
Theorem late_ringing_reopens_ended_call (D : Digest) (id : string) (now now' : nat)
    (s : State) (m : Message) (st : nat) :
  fst (hangup id now s) = true →
  m_status m = Some st → st = 180%nat ∨ st = 183%nat →
  h_call_id (m_headers m) = id →
  cs_method <$> h_cseq (m_headers m) ≠ Some "REGISTER" →
  ∃ c', getCallStatus id (handleIncomingMessage D m now' (snd (hangup id now s))) = Some c'
        ∧ status c' = ringing ∧ endTime c' = Some now.
Proof.
  intros H Hst Hv Hid Hr.
  destruct (hangup_true_lookup id now s H) as (c & _ & Hc').
  unfold getCallStatus. unfold handleIncomingMessage. rewrite Hst.
  destruct st as [|st]; [lia|].
  rewrite bool_decide_eq_false_2 by done. rewrite Hid, Hc'.
  repeat (case_bool_decide; try lia).
  rewrite lookup_update_call_eq, Hc'. cbn. eauto.
Qed.

(** X13: a 401 or 407 to the INVITE of a tracked call that retains its
    INVITE, when the digest helper accepts the challenge and signs, makes
    the service send the retained INVITE again: same method, URI, call-id,
    To, From, Via and body, the sequence number advanced by one and an
    Authorization header added.  The dialog counter advances by one, the
    dialog retains the new INVITE, the status of the call is unchanged. *)
Theorem invite_challenge_resends_invite (D : Digest) (m : Message) (now : nat) (s : State)
    (st : nat) (c : SIPCall) (d : SIPDialog) (inv : Request) (cs : CSeq)
    (session session' : AuthMaterial) (h : string) :
  m_status m = Some st → st = 401%nat ∨ st = 407%nat →
  h_cseq (m_headers m) = Some cs → cs_method cs = "INVITE" →
  getCallStatus (h_call_id (m_headers m)) s = Some c →
  dialog c = Some d → inviteRequest d = Some inv →
  challenge D [] m = inr session →
  signRequest D session (request_set_seq (S (cseq d)) inv)
    (sipUsername (env s)) (sipPassword (env s)) = inr (session', h) →
  sip_send_available s = true →
  ∃ (c' : SIPCall) (d' : SIPDialog) (r : Request),
    sent (handleIncomingMessage D m now s) = (sent s ++ [OutRequest r])%list
    ∧ method r = method inv ∧ r_uri r = r_uri inv ∧ r_call_id r = r_call_id inv
    ∧ r_to r = r_to inv ∧ r_from r = r_from inv ∧ r_via r = r_via inv
    ∧ r_content r = r_content inv
    ∧ cs_seq (r_cseq r) = S (cseq d)
    ∧ r_authorization r = Some h
    ∧ getCallStatus (h_call_id (m_headers m)) (handleIncomingMessage D m now s) = Some c'
    ∧ status c' = status c
    ∧ dialog c' = Some d' ∧ cseq d' = S (cseq d) ∧ inviteRequest d' = Some r.
Proof.
  unfold getCallStatus, handleIncomingMessage.
  intros -> Hst Hcs Hm Hc Hd Hi Hch Hsg Hs.
  destruct st as [|st]; [lia|].
  rewrite Hcs. cbn [fmap option_fmap option_map cs_method].
  rewrite bool_decide_eq_false_2 by (rewrite Hm; done).
  rewrite Hc.
  repeat (case_bool_decide; try lia); try done.
  unfold reInviteWithAuth, sip_send. rewrite Hd. cbn. rewrite Hi. cbn.
  rewrite Hch. cbn. rewrite Hsg. cbn. rewrite Hs. cbn.
  rewrite lookup_alter_eq, Hc. cbn.
  do 3 eexists. repeat split.
Qed.

(** ** Registration *)

(** X14: every run of [register] advances the sequence counter of the
    REGISTER dialog by exactly one and counts as an attempt unless it
    answers a challenge, also when nothing can be sent.  It hands at most
    one request to [sip.send]: a REGISTER to the registrar, with the new
    sequence number, Expires 3600, the call-id of the session, and an
    Authorization header exactly when it answers a challenge. *)
Theorem register_outcome (D : Digest) (a : option Message) (s : State) :
  as_cseq (authSession (register D a s))
  = Some (S (default 0%nat (as_cseq (authSession s))))
  ∧ registrationAttempts (register D a s)
    = match a with Some _ => registrationAttempts s | None => S (registrationAttempts s) end
  ∧ (sent (register D a s) = sent s
     ∨ ∃ r : Request,
         sent (register D a s) = (sent s ++ [OutRequest r])%list
         ∧ sip_send_available s = true
         ∧ method r = "REGISTER"
         ∧ r_uri r = "sip:" +:+ sipServer (env s) +:+ ":" +:+ pretty (sipPort (env s))
         ∧ cs_seq (r_cseq r) = S (default 0%nat (as_cseq (authSession s)))
         ∧ r_expires r = Some 3600%nat
         ∧ (is_Some (r_authorization r) ↔ is_Some a)
         ∧ (∀ cid, as_callId (authSession s) = Some cid → cid ≠ "" → r_call_id r = cid)
         ∧ (as_callId (authSession s) = None → r_call_id r = uuid_register_callId (env s))).
Proof.
  unfold register, sip_send.
  destruct a as [m|]; cbn.
  - destruct (signRequest D _ _ _ _) as [e|[m' h]]; cbn; [by eauto|].
    destruct (sip_send_available s) eqn:E; cbn; [|by eauto].
    split; [done|]. split; [done|]. right. eexists. split; [done|].
    repeat split; eauto.
    + intros cid -> Hne. by destruct cid.
    + by intros ->.
  - destruct (sip_send_available s) eqn:E; cbn; [|by eauto].
    split; [done|]. split; [done|]. right. eexists. split; [done|].
    repeat split; cbn; try done.
    + intros cid -> Hne. by destruct cid.
    + by intros ->.
Qed.

(** X15: a 401 or 407 to a REGISTER, when the digest helper accepts the
    challenge and signs, is answered with a new REGISTER that carries an
    Authorization header, the call-id of the session and the sequence
    number advanced by one.  The attempt counter, the registered flag and
    the promise are unchanged: challenges are answered without limit. *)
Theorem register_challenge_is_answered (D : Digest) (m : Message) (now : nat) (s : State)
    (st : nat) (mat : AuthMaterial) :
  m_status m = Some st → st = 401%nat ∨ st = 407%nat →
  cs_method <$> h_cseq (m_headers m) = Some "REGISTER" →
  challenge D (as_material (authSession s)) m = inr mat →
  (∀ req, ∃ mat' h, signRequest D mat req (sipUsername (env s)) (sipPassword (env s))
                    = inr (mat', h)) →
  sip_send_available s = true →
  registrationAttempts (handleIncomingMessage D m now s) = registrationAttempts s
  ∧ registered (handleIncomingMessage D m now s) = registered s
  ∧ futures (handleIncomingMessage D m now s) = futures s
  ∧ ∃ r : Request,
      sent (handleIncomingMessage D m now s) = (sent s ++ [OutRequest r])%list
      ∧ method r = "REGISTER"
      ∧ cs_seq (r_cseq r) = S (default 0%nat (as_cseq (authSession s)))
      ∧ is_Some (r_authorization r)
      ∧ (∀ cid, as_callId (authSession s) = Some cid → cid ≠ "" → r_call_id r = cid).
Proof.
  unfold handleIncomingMessage. intros -> Hst Hr Hch Hsg Hs.
  destruct st as [|st]; [lia|].
  rewrite bool_decide_eq_true_2 by done.
  rewrite bool_decide_eq_true_2 by done.
  rewrite Hch.
  unfold register, sip_send. cbn.
  match goal with |- context [signRequest D mat ?req _ _] =>
    destruct (Hsg req) as (mat' & h & ->) end.
  cbn. rewrite Hs. cbn. repeat split.
  eexists. split; [done|]. repeat split; eauto.
  intros cid -> Hne. by destruct cid.
Qed.

(** A REGISTER response other than 200, 401 and 407, provisional ones
    included, rejects the pending promise and clears both settle
    functions. *)
Lemma registration_failure_rejects (D : Digest) (m : Message) (now : nat) (s : State)
    (st f : nat) :
  m_status m = Some st →
  cs_method <$> h_cseq (m_headers m) = Some "REGISTER" →
  st ≠ 0%nat → st ≠ 200%nat → st ≠ 401%nat → st ≠ 407%nat →
  registrationReject s = Some f →
  futures (handleIncomingMessage D m now s)
  = apply_reject f ("Registration failed with status " +:+ pretty st) (futures s)
  ∧ registrationResolve (handleIncomingMessage D m now s) = None
  ∧ registrationReject (handleIncomingMessage D m now s) = None
  ∧ registered (handleIncomingMessage D m now s) = registered s
  ∧ sent (handleIncomingMessage D m now s) = sent s.
Proof.
  unfold handleIncomingMessage. intros -> Hr H0 H1 H2 H3 Hf.
  destruct st as [|st]; [done|].
  rewrite bool_decide_eq_true_2 by done.
  repeat (case_bool_decide; try lia).
  by rewrite Hf.
Qed.

(** ** The registration timer *)

(** X16: when the registration timer fires while the service is not
    registered and attempts are left, it runs [register] again: the
    attempt counter grows by one, a REGISTER without Authorization header
    is sent when the transport is available, and the promise is left
    pending.  The timer is consumed and no new one is armed. *)
Theorem registration_timer_retries (D : Digest) (f : nat) (s : State) (t : N) :
  timer_of f (timers s) = Some t →
  registered s = false →
  (registrationAttempts s < maxRegistrationAttempts s)%nat →
  futures (registrationTimer D f s) = futures s
  ∧ registrationReject (registrationTimer D f s) = registrationReject s
  ∧ registrationAttempts (registrationTimer D f s) = S (registrationAttempts s)
  ∧ timers (registrationTimer D f s) = drop_timer f (timers s)
  ∧ (sip_send_available s = true →
     ∃ r : Request,
       sent (registrationTimer D f s) = (sent s ++ [OutRequest r])%list
       ∧ method r = "REGISTER" ∧ r_authorization r = None
       ∧ cs_seq (r_cseq r) = S (default 0%nat (as_cseq (authSession s)))).
Proof.
  unfold registrationTimer. intros -> Hreg Hlt. cbn -[Nat.ltb]. rewrite Hreg.
  destruct (Nat.ltb_spec (registrationAttempts s) (maxRegistrationAttempts s)); [|lia].
  unfold register, sip_send. cbn.
  destruct (sip_send_available s) eqn:Hs; cbn.
  - repeat split. eexists. by repeat split.
  - by repeat split.
Qed.

(** With the attempts used up the timer rejects with the timeout message
    and leaves the settle functions in place. *)
Lemma registration_timer_rejects (D : Digest) (f : nat) (s : State) (t : N) :
  timer_of f (timers s) = Some t →
  registered s = false →
  (maxRegistrationAttempts s ≤ registrationAttempts s)%nat →
  futures (registrationTimer D f s)
  = apply_reject f (timeoutMessage (NODE_ENV (env s)) t (registrationAttempts s)) (futures s)
  ∧ registrationResolve (registrationTimer D f s) = registrationResolve s
  ∧ registrationReject (registrationTimer D f s) = registrationReject s
  ∧ registrationAttempts (registrationTimer D f s) = registrationAttempts s
  ∧ timers (registrationTimer D f s) = drop_timer f (timers s)
  ∧ sent (registrationTimer D f s) = sent s.
Proof.
  unfold registrationTimer. intros -> Hreg Hle. cbn -[Nat.ltb]. rewrite Hreg.
  destruct (Nat.ltb_spec (registrationAttempts s) (maxRegistrationAttempts s)); [lia|].
  done.
Qed.

(** X17: the timer rejects through the function it closed over and does
    not clear [registrationReject].  When the timer of the pending promise
    fires with the attempts used up and a failure response to REGISTER
    arrives afterwards, [reject] is applied to that promise twice: first
    with the timeout message, then with "Registration failed with status
    <status>". *)
Theorem timeout_then_failure_rejects_twice (D : Digest) (f : nat) (s : State) (t : N)
    (m : Message) (now st : nat) (c : Future) :
  timer_of f (timers s) = Some t →
  registered s = false →
  (maxRegistrationAttempts s ≤ registrationAttempts s)%nat →
  registrationReject s = Some f →
  futures s !! f = Some c →
  m_status m = Some st →
  cs_method <$> h_cseq (m_headers m) = Some "REGISTER" →
  st ≠ 0%nat → st ≠ 200%nat → st ≠ 401%nat → st ≠ 407%nat →
  futures (handleIncomingMessage D m now (registrationTimer D f s)) !! f
  = Some {| resolves := resolves c;
            rejects := (rejects c
                        ++ [ timeoutMessage (NODE_ENV (env s)) t (registrationAttempts s);
                             "Registration failed with status " +:+ pretty st ])%list |}.
Proof.
  intros Ht Hreg Hle Hf Hc Hst Hr H0 H1 H2 H3.
  destruct (registration_timer_rejects D f s t Ht Hreg Hle) as (Hfu & _ & Hrej & _).
  destruct (registration_failure_rejects D m now (registrationTimer D f s) st f
              Hst Hr H0 H1 H2 H3) as (-> & _).
  { by rewrite Hrej. }
  rewrite Hfu. unfold apply_reject. rewrite Hc.
  assert (f < length (futures s))%nat as Hlt by (by eapply lookup_lt_Some).
  rewrite list_lookup_insert_eq by done.
  cbn. rewrite list_lookup_insert_eq by (by rewrite length_insert).
  cbn. by rewrite <- app_assoc.
Qed.

(** ** Start-up *)

(** X18: when the stack starts (or a started stack still offers
    [sip.send]), [initialize] marks the service initialized, takes the
    client port from the environment, creates one fresh pending promise
    whose settle functions it stores, arms one timer with the timeout of
    the environment, counts one attempt and sends one REGISTER without
    Authorization header.  The registered flag is not reset. *)
Theorem initialize_starts_registration (D : Digest) (ok : bool) (s : State) :
  initialized s = false →
  (globalSipStarted s = false ∧ ok = true)
  ∨ (globalSipStarted s = true ∧ sip_send_available s = true) →
  initialized (initialize D ok s) = true
  ∧ globalSipStarted (initialize D ok s) = true
  ∧ sip_send_available (initialize D ok s) = true
  ∧ registered (initialize D ok s) = registered s
  ∧ clientPort (initialize D ok s) = FALEVONO_SIP_PORT (env s)
  ∧ futures (initialize D ok s) = (futures s ++ [ {| resolves := 0; rejects := [] |} ])%list
  ∧ registrationPromise (initialize D ok s) = Some (length (futures s))
  ∧ registrationResolve (initialize D ok s) = Some (length (futures s))
  ∧ registrationReject (initialize D ok s) = Some (length (futures s))
  ∧ timers (initialize D ok s)
    = (timers s ++ [ (length (futures s), registrationTimeout (env s)) ])%list
  ∧ registrationAttempts (initialize D ok s) = S (registrationAttempts s)
  ∧ ∃ r : Request,
      sent (initialize D ok s) = (sent s ++ [OutRequest r])%list
      ∧ method r = "REGISTER" ∧ r_authorization r = None
      ∧ r_expires r = Some 3600%nat
      ∧ cs_seq (r_cseq r) = S (default 0%nat (as_cseq (authSession s))).
Proof.
  unfold initialize. intros Hi Hc. rewrite Hi. cbn -[register].
  destruct Hc as [[Hg ->]|[Hg Hs]]; rewrite Hg; cbn -[register].
  - unfold register, sip_send. cbn. repeat split. eexists. by repeat split.
  - rewrite Hs. cbn -[register]. unfold register, sip_send. cbn. rewrite Hs. cbn.
    repeat split; try done. eexists. by repeat split.
Qed.

(** X19: when the stack does not come up, or a started stack has lost
    [sip.send], [initialize] fails cleanly: the service stays
    uninitialized, the started flag is cleared, no promise or timer is
    created, no attempt is counted and nothing is sent.  A later
    [initialize] whose start succeeds then initializes the service. *)
Theorem initialize_failure_can_be_retried (D : Digest) (ok : bool) (s : State) :
  initialized s = false →
  (globalSipStarted s = false ∧ ok = false)
  ∨ (globalSipStarted s = true ∧ sip_send_available s = false) →
  initialized (initialize D ok s) = false
  ∧ globalSipStarted (initialize D ok s) = false
  ∧ futures (initialize D ok s) = futures s
  ∧ timers (initialize D ok s) = timers s
  ∧ registrationPromise (initialize D ok s) = registrationPromise s
  ∧ registrationAttempts (initialize D ok s) = registrationAttempts s
  ∧ sent (initialize D ok s) = sent s
  ∧ initialized (initialize D true (initialize D ok s)) = true
  ∧ sip_send_available (initialize D true (initialize D ok s)) = true.
Proof.
  intros Hi Hc.
  assert (initialize D ok s
          = set_stack false false
              (set_transport (FALEVONO_SIP_PORT (env s))
                 (if useTCP (env s) then "TCP" else "UDP") s)) as ->.
  { unfold initialize. rewrite Hi. cbn -[register].
    destruct Hc as [[Hg ->]|[Hg Hs]]; rewrite Hg; cbn -[register]; [done|].
    by rewrite Hs. }
  repeat split; cbn; try done.
  - unfold initialize. cbn -[register]. rewrite Hi. cbn -[register].
    match goal with |- context [register D ?a ?s0] =>
      by destruct (register_frame D a s0) as (_ & _ & _ & _ & _ & -> & _) end.
  - unfold initialize. cbn -[register]. rewrite Hi. cbn -[register].
    match goal with |- context [register D ?a ?s0] =>
      by destruct (register_frame D a s0)
        as (_ & _ & _ & _ & _ & _ & _ & _ & _ & _ & -> & _) end.
Qed.

(** ** Frames: what each operation leaves alone *)

Lemma reg_view_inv (s s' : State) :
  reg_view s' = reg_view s →
  env s' = env s ∧ authSession s' = authSession s
  ∧ registrationAttempts s' = registrationAttempts s
  ∧ maxRegistrationAttempts s' = maxRegistrationAttempts s
  ∧ futures s' = futures s ∧ timers s' = timers s
  ∧ registrationPromise s' = registrationPromise s
  ∧ registrationResolve s' = registrationResolve s
  ∧ registrationReject s' = registrationReject s.
Proof. unfold reg_view. by intros [= -> -> -> -> -> -> -> -> ->]. Qed.

Lemma hangup_frame (id : string) (now : nat) (s : State) :
  reg_view (snd (hangup id now s)) = reg_view s
  ∧ callOrder (snd (hangup id now s)) = callOrder s
  ∧ sip_send_available (snd (hangup id now s)) = sip_send_available s
  ∧ registered (snd (hangup id now s)) = registered s
  ∧ initialized (snd (hangup id now s)) = initialized s
  ∧ globalSipStarted (snd (hangup id now s)) = globalSipStarted s.
Proof.
  unfold hangup.
  destruct (activeCalls s !! id) as [c|]; [|done].
  destruct (hangup_send id c s) as [s1|] eqn:E; [|done].
  by apply hangup_send_cases in E as [->|(r & -> & _)].
Qed.

Lemma sendDTMF_frame (id digits : string) (s : State) :
  reg_view (snd (sendDTMF id digits s)) = reg_view s
  ∧ callOrder (snd (sendDTMF id digits s)) = callOrder s
  ∧ sip_send_available (snd (sendDTMF id digits s)) = sip_send_available s
  ∧ registered (snd (sendDTMF id digits s)) = registered s
  ∧ initialized (snd (sendDTMF id digits s)) = initialized s
  ∧ globalSipStarted (snd (sendDTMF id digits s)) = globalSipStarted s.
Proof.
  destruct (sendDTMF id digits s) as [[|] s'] eqn:E; cbn.
  - by apply sendDTMF_true in E as (c & d & r & u & inv & _ & _ & _ & _ & _ & _ & _ & ->).
  - by apply sendDTMF_false in E as (_ & ? & ? & ? & ? & ? & ?).
Qed.

Lemma makeCall_frame (n id t b : string) (now sid : nat) (s : State) :
  reg_view (snd (makeCall n id t b now sid s)) = reg_view s
  ∧ sip_send_available (snd (makeCall n id t b now sid s)) = sip_send_available s
  ∧ registered (snd (makeCall n id t b now sid s)) = registered s
  ∧ initialized (snd (makeCall n id t b now sid s)) = initialized s
  ∧ globalSipStarted (snd (makeCall n id t b now sid s)) = globalSipStarted s.
Proof.
  unfold makeCall, sip_send. cbn.
  destruct (sip_send_available s) eqn:E; cbn; done.
Qed.

Lemma handleIncomingRequest_frame (m : Message) (now : nat) (s : State) :
  reg_view (handleIncomingRequest m now s) = reg_view s
  ∧ callOrder (handleIncomingRequest m now s) = callOrder s
  ∧ sip_send_available (handleIncomingRequest m now s) = sip_send_available s
  ∧ registered (handleIncomingRequest m now s) = registered s
  ∧ initialized (handleIncomingRequest m now s) = initialized s
  ∧ globalSipStarted (handleIncomingRequest m now s) = globalSipStarted s.
Proof.
  unfold handleIncomingRequest, sip_send.
  case_bool_decide; [|done]. cbn.
  destruct (sip_send_available s) eqn:E; cbn; done.
Qed.

Lemma reInviteWithAuth_frame (D : Digest) (id : string) (c : SIPCall) (m : Message)
    (now : nat) (s : State) :
  reg_view (reInviteWithAuth D id c m now s) = reg_view s
  ∧ callOrder (reInviteWithAuth D id c m now s) = callOrder s
  ∧ sip_send_available (reInviteWithAuth D id c m now s) = sip_send_available s
  ∧ registered (reInviteWithAuth D id c m now s) = registered s
  ∧ initialized (reInviteWithAuth D id c m now s) = initialized s
  ∧ globalSipStarted (reInviteWithAuth D id c m now s) = globalSipStarted s.
Proof.
  unfold reInviteWithAuth, sip_send.
  destruct (_ ≫= _) as [[d inv]|]; [|done].
  destruct (challenge D _ _) as [e|ses]; [done|].
  destruct (signRequest D _ _ _ _) as [e|[? h]]; [done|].
  cbn. by destruct (sip_send_available s) eqn:E.
Qed.

Lemma sendAck_frame (c : SIPCall) (m : Message) (s : State) :
  reg_view (sendAck c m s) = reg_view s
  ∧ call_view (sendAck c m s) = call_view s
  ∧ sip_send_available (sendAck c m s) = sip_send_available s
  ∧ registered (sendAck c m s) = registered s
  ∧ initialized (sendAck c m s) = initialized s
  ∧ globalSipStarted (sendAck c m s) = globalSipStarted s.
Proof.
  unfold sendAck, sip_send.
  destruct (_ ≫= _) as [s1|] eqn:E; [|done].
  apply bind_Some in E as (r & _ & E).
  by destruct (sip_send_available s) eqn:E'; simplify_eq.
Qed.

Lemma handleIncomingMessage_call_frame (D : Digest) (m : Message) (now : nat) (s : State) :
  cs_method <$> h_cseq (m_headers m) ≠ Some "REGISTER" →
  reg_view (handleIncomingMessage D m now s) = reg_view s
  ∧ callOrder (handleIncomingMessage D m now s) = callOrder s
  ∧ sip_send_available (handleIncomingMessage D m now s) = sip_send_available s
  ∧ registered (handleIncomingMessage D m now s) = registered s
  ∧ initialized (handleIncomingMessage D m now s) = initialized s
  ∧ globalSipStarted (handleIncomingMessage D m now s) = globalSipStarted s.
Proof.
  intros Hr. unfold handleIncomingMessage.
  destruct (m_status m) as [[|st]|]; [done| |done].
  rewrite bool_decide_eq_false_2 by done.
  destruct (activeCalls s !! _) as [c|]; [|done].
  repeat case_bool_decide; try done.
  - destruct (h_cseq (m_headers m)) as [cs|]; [|done].
    case_bool_decide; [|done].
    match goal with |- context [sendAck ?c ?m ?s0] =>
      destruct (sendAck_frame c m s0) as (-> & E & -> & -> & -> & ->) end.
    unfold call_view in E. by simplify_eq.
  - destruct (h_cseq (m_headers m)) as [cs|]; [|done].
    case_bool_decide; [|done]. apply reInviteWithAuth_frame.
  - by destruct (_ <=? _)%nat.
Qed.

Lemma handleIncomingMessage_register_frame (D : Digest) (m : Message) (now : nat)
    (s : State) :
  cs_method <$> h_cseq (m_headers m) = Some "REGISTER" →
  call_view (handleIncomingMessage D m now s) = call_view s
  ∧ env (handleIncomingMessage D m now s) = env s
  ∧ sip_send_available (handleIncomingMessage D m now s) = sip_send_available s
  ∧ initialized (handleIncomingMessage D m now s) = initialized s
  ∧ globalSipStarted (handleIncomingMessage D m now s) = globalSipStarted s
  ∧ maxRegistrationAttempts (handleIncomingMessage D m now s) = maxRegistrationAttempts s
  ∧ timers (handleIncomingMessage D m now s) = timers s.
Proof.
  intros Hr. unfold handleIncomingMessage, call_view.
  destruct (m_status m) as [[|st]|]; [done| |done].
  rewrite bool_decide_eq_true_2 by done.
  repeat case_bool_decide.
  - destruct (challenge D _ _); [done|].
    match goal with |- context [register D ?a ?s0] =>
      destruct (register_frame D a s0)
        as (-> & -> & _ & -> & _ & -> & _ & _ & _ & -> & -> & -> & _ & _ & ->) end.
    done.
  - cbn. by destruct (registrationResolve s).
  - by destruct (registrationReject s).
Qed.

Lemma initialize_frame (D : Digest) (ok : bool) (s : State) :
  call_view (initialize D ok s) = call_view s
  ∧ env (initialize D ok s) = env s
  ∧ registered (initialize D ok s) = registered s
  ∧ maxRegistrationAttempts (initialize D ok s) = maxRegistrationAttempts s.
Proof.
  unfold initialize, call_view.
  destruct (initialized s); [done|]. cbn -[register].
  destruct (globalSipStarted s), ok, (sip_send_available s); cbn -[register]; try done;
    match goal with |- context [register D ?a ?s0] =>
      by destruct (register_frame D a s0)
        as (-> & -> & _ & _ & -> & _ & _ & _ & _ & -> & _ & _ & _ & _ & ->) end.
Qed.

Lemma registrationTimer_frame (D : Digest) (f : nat) (s : State) :
  call_view (registrationTimer D f s) = call_view s
  ∧ env (registrationTimer D f s) = env s
  ∧ registered (registrationTimer D f s) = registered s
  ∧ initialized (registrationTimer D f s) = initialized s
  ∧ sip_send_available (registrationTimer D f s) = sip_send_available s
  ∧ globalSipStarted (registrationTimer D f s) = globalSipStarted s
  ∧ maxRegistrationAttempts (registrationTimer D f s) = maxRegistrationAttempts s
  ∧ registrationResolve (registrationTimer D f s) = registrationResolve s
  ∧ registrationReject (registrationTimer D f s) = registrationReject s.
Proof.
  unfold registrationTimer, call_view.
  destruct (timer_of f (timers s)); [|done]. cbn -[register Nat.ltb].
  destruct (registered s) eqn:Hreg; [done|].
  destruct (_ <? _)%nat; [|done].
  match goal with |- context [register D ?a ?s0] =>
    by destruct (register_frame D a s0)
      as (-> & -> & _ & _ & -> & -> & -> & -> & _ & -> & -> & -> & _ & _ & ->) end.
Qed.

Lemma foldl_hangup_frame (now : nat) (l : list string) (s : State) :
  reg_view (foldl (λ acc id, snd (hangup id now acc)) s l) = reg_view s
  ∧ callOrder (foldl (λ acc id, snd (hangup id now acc)) s l) = callOrder s
  ∧ sip_send_available (foldl (λ acc id, snd (hangup id now acc)) s l)
    = sip_send_available s
  ∧ globalSipStarted (foldl (λ acc id, snd (hangup id now acc)) s l)
    = globalSipStarted s.
Proof.
  revert s. induction l as [|id l IH]; intros s; cbn; [done|].
  destruct (IH (snd (hangup id now s))) as (-> & -> & -> & ->).
  by destruct (hangup_frame id now s) as (-> & -> & -> & _ & _ & ->).
Qed.

(** ** Every tracked call retains its INVITE *)

Lemma call_wf_same_dialog (id : string) (c c' : SIPCall) :
  callId c' = callId c → dialog c' = dialog c → call_wf id c → call_wf id c'.
Proof. unfold call_wf. intros -> ->. done. Qed.

Lemma calls_wf_alter (id : string) (f : SIPCall → SIPCall) (s s' : State) :
  calls_wf s →
  activeCalls s' = alter f id (activeCalls s) →
  (∀ c, activeCalls s !! id = Some c → call_wf id c → call_wf id (f c)) →
  calls_wf s'.
Proof.
  intros Hwf Ha Hf id' c'. rewrite Ha.
  destruct (decide (id = id')) as [<-|Hne].
  - rewrite lookup_alter_eq. intros (c & Hc & ->)%fmap_Some. eauto.
  - rewrite lookup_alter_ne by done. apply Hwf.
Qed.

Lemma calls_wf_same (s s' : State) :
  calls_wf s → activeCalls s' = activeCalls s → calls_wf s'.
Proof. intros Hwf Ha id c. rewrite Ha. apply Hwf. Qed.

Lemma hangup_calls_wf (id : string) (now : nat) (s : State) :
  calls_wf s → calls_wf (snd (hangup id now s)).
Proof.
  intros Hwf. destruct (hangup_calls id now s) as [E|E].
  - by eapply calls_wf_same.
  - eapply calls_wf_alter; [done..|]. intros c _. by apply call_wf_same_dialog.
Qed.

Lemma sendDTMF_calls_wf (id digits : string) (s : State) :
  calls_wf s → calls_wf (snd (sendDTMF id digits s)).
Proof.
  intros Hwf. unfold sendDTMF.
  destruct (activeCalls s !! id) as [c|] eqn:Ec; [|done].
  destruct (dialog c) as [d|] eqn:Ed; [|done].
  case_bool_decide; cbn; [|done].
  destruct (_ ≫= _) as [req|]; [|done].
  assert (calls_wf (update_call id (call_set_dialog (dialog_set_cseq (S (cseq d)) d)) s)).
  { eapply calls_wf_alter; [done..|].
    intros c0 Hc0 (Hid & d0 & inv & Hd0 & Hi & Hm & Hci & H1 & H2).
    assert (c0 = c) as -> by congruence. assert (d0 = d) as -> by congruence.
    split; [done|]. exists (dialog_set_cseq (S (cseq d)) d), inv. cbn.
    repeat split; try done. lia. }
  unfold sip_send. cbn. by destruct (sip_send_available s).
Qed.

Lemma makeCall_calls_wf (n id t b : string) (now sid : nat) (s : State) :
  calls_wf s → calls_wf (snd (makeCall n id t b now sid s)).
Proof.
  intros Hwf id' c'. unfold makeCall, sip_send. cbn.
  destruct (sip_send_available s); cbn.
  - destruct (decide (id = id')) as [<-|Hne].
    + rewrite lookup_insert_eq. intros [= <-]. split; [done|].
      do 2 eexists. cbn. repeat split; done.
    + rewrite lookup_insert_ne by done. apply Hwf.
  - destruct (decide (id = id')) as [<-|Hne].
    + rewrite lookup_alter_eq, lookup_insert_eq. cbn. intros [= <-]. split; [done|].
      do 2 eexists. cbn. repeat split; done.
    + rewrite lookup_alter_ne, lookup_insert_ne by done. apply Hwf.
Qed.

Lemma reInviteWithAuth_calls_wf (D : Digest) (id : string) (c : SIPCall) (m : Message)
    (now : nat) (s : State) :
  calls_wf s → activeCalls s !! id = Some c →
  calls_wf (reInviteWithAuth D id c m now s).
Proof.
  intros Hwf Hc. unfold reInviteWithAuth.
  destruct (Hwf id c Hc) as (Hid & d & inv & Hd & Hi & Hm & Hci & H1 & H2).
  rewrite Hd. cbn. rewrite Hi. cbn.
  destruct (challenge D _ _) as [e|ses].
  { eapply calls_wf_alter; [done..|]. intros c0 _. by apply call_wf_same_dialog. }
  destruct (signRequest D _ _ _ _) as [e|[? h]].
  { eapply calls_wf_alter; [done..|].
    intros c0 Hc0 _. assert (c0 = c) as -> by congruence.
    split; [done|]. exists (dialog_set_cseq (S (cseq d)) d), inv. cbn.
    repeat split; try done. lia. }
  match goal with |- calls_wf (match sip_send _ ?s1 with _ => _ end) =>
    assert (calls_wf s1) as Hwf1 end.
  { eapply calls_wf_alter; [done..|].
    intros c0 Hc0 _. assert (c0 = c) as -> by congruence.
    split; [done|]. do 2 eexists. cbn. repeat split; try done. cbn. lia. }
  unfold sip_send. cbn. destruct (sip_send_available s); cbn.
  - by eapply calls_wf_same.
  - eapply calls_wf_alter; [exact Hwf1|done|].
    intros c0 _. by apply call_wf_same_dialog.
Qed.

Lemma handleIncomingMessage_calls_wf (D : Digest) (m : Message) (now : nat) (s : State) :
  calls_wf s → calls_wf (handleIncomingMessage D m now s).
Proof.
  intros Hwf.
  destruct (decide (cs_method <$> h_cseq (m_headers m) = Some "REGISTER")) as [Hr|Hr].
  { eapply calls_wf_same; [done|].
    apply (responses_are_routed_by_cseq_method D m now s), Hr. }
  unfold handleIncomingMessage.
  destruct (m_status m) as [[|st]|]; [done| |done].
  rewrite bool_decide_eq_false_2 by done.
  destruct (activeCalls s !! _) as [c|] eqn:Hc; [|done].
  repeat case_bool_decide; try done.
  - eapply calls_wf_alter; [done..|]. intros c0 _. by apply call_wf_same_dialog.
  - destruct (h_cseq (m_headers m)) as [cs|]; [|done].
    case_bool_decide; [|done].
    match goal with |- calls_wf (sendAck ?c1 _ ?s1) =>
      destruct (sendAck_frame c1 m s1) as (_ & E & _); unfold call_view in E;
      assert (calls_wf s1) as Hwf1 end.
    { eapply calls_wf_alter; [done..|].
      intros c0 Hc0 _. assert (c0 = c) as -> by congruence.
      destruct (Hwf _ c Hc) as (Hid & d & inv & Hd & Hi & Hm & Hci & H1' & H2').
      rewrite Hd. split; [done|]. exists (dialog_answer m d), inv. done. }
    eapply calls_wf_same; [exact Hwf1|]. by simplify_eq.
  - destruct (h_cseq (m_headers m)) as [cs|]; [|done].
    case_bool_decide; [|done]. by apply reInviteWithAuth_calls_wf.
  - eapply calls_wf_alter; [done..|]. intros c0 _. by apply call_wf_same_dialog.
  - eapply calls_wf_alter; [done..|]. intros c0 _. by apply call_wf_same_dialog.
  - destruct (_ <=? _)%nat; [|done].
    eapply calls_wf_alter; [done..|]. intros c0 _. by apply call_wf_same_dialog.
Qed.

Lemma handleIncomingRequest_calls_wf (m : Message) (now : nat) (s : State) :
  calls_wf s → calls_wf (handleIncomingRequest m now s).
Proof.
  intros Hwf. unfold handleIncomingRequest, sip_send.
  case_bool_decide; [|done]. cbn.
  destruct (sip_send_available s); cbn;
    (eapply calls_wf_alter; [done..|]; intros c0 _; by apply call_wf_same_dialog).
Qed.

Lemma foldl_hangup_calls_wf (now : nat) (l : list string) (s : State) :
  calls_wf s → calls_wf (foldl (λ acc id, snd (hangup id now acc)) s l).
Proof.
  revert s. induction l as [|id l IH]; intros s Hwf; cbn; [done|].
  by apply IH, hangup_calls_wf.
Qed.

Lemma step_calls_wf (D : Digest) (ev : Event) (s : State) :
  calls_wf s → calls_wf (step D ev s).
Proof.
  intros Hwf.
  destruct ev as [ok|f|avail|n id t b now sid|id err now|m now|m now|id now|id digits|now];
    cbn [step].
  - eapply calls_wf_same; [done|].
    destruct (initialize_frame D ok s) as (E & _). unfold call_view in E. by simplify_eq.
  - eapply calls_wf_same; [done|].
    destruct (registrationTimer_frame D f s) as (E & _). unfold call_view in E. by simplify_eq.
  - by eapply calls_wf_same.
  - by apply makeCall_calls_wf.
  - unfold inviteSent. destruct err;
      (eapply calls_wf_alter; [done..|]; intros c0 _; by apply call_wf_same_dialog).
  - by apply handleIncomingMessage_calls_wf.
  - by apply handleIncomingRequest_calls_wf.
  - by apply hangup_calls_wf.
  - by apply sendDTMF_calls_wf.
  - unfold shutdown. eapply calls_wf_same; [by apply foldl_hangup_calls_wf|done].
Qed.

Lemma reachable_calls_wf (D : Digest) (e : Env) (s : State) :
  reachable D e s → calls_wf s.
Proof. induction 1 as [|s ev _ IH _]; [done|]. by apply step_calls_wf. Qed.

Lemma reachable_run (D : Digest) (e : Env) (evs : list Event) (s : State) :
  reachable D e s → fresh_runb D s evs = true → reachable D e (run D evs s).
Proof.
  unfold run. revert s. induction evs as [|ev evs IH]; intros s Hr Hf; cbn in *; [done|].
  apply andb_true_iff in Hf as [Hf1 Hf2].
  apply IH; [|done]. apply reach_step; [done|].
  destruct ev; cbn in *; try done. by apply bool_decide_eq_true in Hf1.
Qed.

(** X20: in every state the service can reach, a tracked call carries
    its own call-id and has a dialog that retains an INVITE with that
    call-id, whose sequence number is at least 1 and never exceeds the
    dialog counter. *)
Theorem tracked_calls_retain_their_invite (D : Digest) (e : Env) (s : State)
    (id : string) (c : SIPCall) :
  reachable D e s →
  getCallStatus id s = Some c →
  callId c = id
  ∧ ∃ (d : SIPDialog) (inv : Request),
      dialog c = Some d ∧ inviteRequest d = Some inv
      ∧ method inv = "INVITE" ∧ r_call_id inv = id
      ∧ (1 ≤ cs_seq (r_cseq inv))%nat ∧ (cs_seq (r_cseq inv) ≤ cseq d)%nat.
Proof.
  intros Hr Hc. exact (reachable_calls_wf D e s Hr id c Hc).
Qed.

(** X21: in a reachable state with the transport available, hanging up
    a ringing or initiating call returns true and hands exactly one
    CANCEL to [sip.send]; the CANCEL copies the URI, To, From, Via and
    sequence number of the INVITE the dialog retains (the authenticated
    one after a challenge).  The call ends with the end time set. *)
Theorem hangup_cancels_unanswered_call (D : Digest) (e : Env) (s : State) (id : string)
    (c : SIPCall) (now : nat) :
  reachable D e s →
  getCallStatus id s = Some c →
  status c = ringing ∨ status c = initiating →
  sip_send_available s = true →
  fst (hangup id now s) = true
  ∧ ∃ (d : SIPDialog) (inv r : Request) (c' : SIPCall),
      dialog c = Some d ∧ inviteRequest d = Some inv
      ∧ sent (snd (hangup id now s)) = (sent s ++ [OutRequest r])%list
      ∧ method r = "CANCEL" ∧ r_call_id r = id
      ∧ cs_seq (r_cseq r) = cs_seq (r_cseq inv)
      ∧ r_uri r = r_uri inv ∧ r_to r = r_to inv ∧ r_from r = r_from inv
      ∧ r_via r = r_via inv
      ∧ getCallStatus id (snd (hangup id now s)) = Some c'
      ∧ status c' = ended ∧ endTime c' = Some now.
Proof.
  intros Hr Hc Hst Hs.
  destruct (reachable_calls_wf D e s Hr id c Hc) as (_ & d & inv & Hd & Hi & _).
  assert (hangup_send id c s
          = Some (set_sent (sent s ++ [OutRequest (cancelRequest id inv)])%list s)) as Hh.
  { unfold hangup_send, sip_send. rewrite Hd. cbn. rewrite Hi.
    destruct Hst as [-> | ->]; destruct (lastResponse d); cbn;
      rewrite bool_decide_eq_true_2 by tauto; by rewrite Hs. }
  unfold getCallStatus in *. unfold hangup. rewrite Hc, Hh. cbn.
  split; [done|]. exists d, inv. do 2 eexists.
  rewrite lookup_alter_eq, Hc. cbn. repeat split; done.
Qed.

(** X22: in a reachable state with the transport available, hanging up
    an answered call whose stored response names a target returns true
    and hands exactly one BYE to [sip.send]: request URI that target, To
    the remote and From the local party of the dialog, the Via of the
    retained INVITE, and the sequence number one above the dialog
    counter, hence above that of every INVITE of the call.  The call ends
    with the end time set. *)
Theorem hangup_sends_bye (D : Digest) (e : Env) (s : State) (id : string)
    (c : SIPCall) (d : SIPDialog) (resp : Message) (u : string) (now : nat) :
  reachable D e s →
  getCallStatus id s = Some c →
  status c = answered → dialog c = Some d → lastResponse d = Some resp →
  contact_or (m_headers resp) (remote d) = Some u →
  sip_send_available s = true →
  fst (hangup id now s) = true
  ∧ ∃ (inv r : Request) (c' : SIPCall),
      inviteRequest d = Some inv
      ∧ sent (snd (hangup id now s)) = (sent s ++ [OutRequest r])%list
      ∧ method r = "BYE" ∧ r_uri r = u ∧ r_call_id r = id
      ∧ cs_seq (r_cseq r) = (cseq d + 1)%nat
      ∧ (cs_seq (r_cseq inv) < cs_seq (r_cseq r))%nat
      ∧ r_to r = remote d ∧ r_from r = local d ∧ r_via r = r_via inv
      ∧ getCallStatus id (snd (hangup id now s)) = Some c'
      ∧ status c' = ended ∧ endTime c' = Some now.
Proof.
  intros Hr Hc Hst Hd Hl Hu Hs.
  destruct (reachable_calls_wf D e s Hr id c Hc)
    as (_ & d0 & inv & Hd0 & Hi & _ & _ & _ & Hle).
  assert (d0 = d) as -> by congruence.
  unfold getCallStatus in *. unfold hangup, hangup_send, sip_send.
  rewrite Hc, Hst, Hd. cbn. rewrite Hl. cbn. rewrite Hu. cbn. rewrite Hi. cbn.
  rewrite Hs. cbn. split; [done|]. exists inv. do 2 eexists.
  rewrite lookup_alter_eq, Hc. cbn. repeat split; try done. cbn. lia.
Qed.

(** ** The call table only grows *)

Lemma same_dom_refl (s : State) : same_dom s s.
Proof. done. Qed.

Lemma same_dom_trans (s1 s2 s3 : State) :
  same_dom s1 s2 → same_dom s2 s3 → same_dom s1 s3.
Proof.
  intros [E1 H1] [E2 H2]. split; [congruence|]. intros id. by rewrite H2, H1.
Qed.

Lemma same_dom_alter (s s' : State) (f : SIPCall → SIPCall) (id : string) :
  callOrder s' = callOrder s → activeCalls s' = alter f id (activeCalls s) →
  same_dom s s'.
Proof.
  intros E Ha. split; [done|]. intros id'. rewrite Ha.
  destruct (decide (id = id')) as [<-|Hne].
  - rewrite lookup_alter_eq. by rewrite fmap_is_Some.
  - by rewrite lookup_alter_ne.
Qed.

Lemma same_dom_eq (s s' : State) : call_view s' = call_view s → same_dom s s'.
Proof. unfold call_view. intros [= E1 E2]. split; [done|]. intros id. by rewrite E1. Qed.

Lemma hangup_same_dom (id : string) (now : nat) (s : State) :
  same_dom s (snd (hangup id now s)).
Proof.
  destruct (hangup_frame id now s) as (_ & Ho & _).
  destruct (hangup_calls id now s) as [E|E].
  - split; [done|]. intros id'. by rewrite E.
  - by eapply same_dom_alter.
Qed.

Lemma sendDTMF_same_dom (id digits : string) (s : State) :
  same_dom s (snd (sendDTMF id digits s)).
Proof.
  unfold sendDTMF, sip_send.
  destruct (activeCalls s !! id) as [c|]; [|done].
  destruct (dialog c) as [d|]; [|done].
  case_bool_decide; cbn; [|done].
  destruct (_ ≫= _) as [req|]; [|done]. cbn.
  destruct (sip_send_available s); cbn; by eapply same_dom_alter.
Qed.

Lemma reInviteWithAuth_same_dom (D : Digest) (id : string) (c : SIPCall) (m : Message)
    (now : nat) (s : State) :
  same_dom s (reInviteWithAuth D id c m now s).
Proof.
  unfold reInviteWithAuth.
  destruct (_ ≫= _) as [[d inv]|]; [|by eapply same_dom_alter].
  destruct (challenge D _ _) as [e|ses]; [by eapply same_dom_alter|].
  destruct (signRequest D _ _ _ _) as [e|[? h]]; [by eapply same_dom_alter|].
  match goal with |- same_dom s (match sip_send _ ?s1 with _ => _ end) =>
    assert (same_dom s s1) as H1 by (by eapply same_dom_alter) end.
  unfold sip_send. destruct (sip_send_available _).
  - eapply same_dom_trans; [exact H1|]. by apply same_dom_eq.
  - eapply same_dom_trans; [exact H1|]. by eapply same_dom_alter.
Qed.

Lemma handleIncomingMessage_same_dom (D : Digest) (m : Message) (now : nat) (s : State) :
  same_dom s (handleIncomingMessage D m now s).
Proof.
  destruct (decide (cs_method <$> h_cseq (m_headers m) = Some "REGISTER")) as [Hr|Hr].
  { apply same_dom_eq. by apply handleIncomingMessage_register_frame. }
  unfold handleIncomingMessage.
  destruct (m_status m) as [[|st]|]; [done| |done].
  rewrite bool_decide_eq_false_2 by done.
  destruct (activeCalls s !! _) as [c|] eqn:Hc; [|done].
  repeat case_bool_decide; try done; try (by eapply same_dom_alter).
  - destruct (h_cseq (m_headers m)) as [cs|]; [|done].
    case_bool_decide; [|done].
    eapply same_dom_trans; [|apply same_dom_eq, sendAck_frame].
    by eapply same_dom_alter.
  - destruct (h_cseq (m_headers m)) as [cs|]; [|done].
    case_bool_decide; [|done]. apply reInviteWithAuth_same_dom.
  - destruct (_ <=? _)%nat; [|done]. by eapply same_dom_alter.
Qed.

Lemma handleIncomingRequest_same_dom (m : Message) (now : nat) (s : State) :
  same_dom s (handleIncomingRequest m now s).
Proof.
  unfold handleIncomingRequest, sip_send.
  case_bool_decide; [|done]. cbn.
  destruct (sip_send_available s); cbn; by eapply same_dom_alter.
Qed.

Lemma foldl_hangup_same_dom (now : nat) (l : list string) (s : State) :
  same_dom s (foldl (λ acc id, snd (hangup id now acc)) s l).
Proof.
  revert s. induction l as [|id l IH]; intros s; cbn; [done|].
  eapply same_dom_trans; [apply hangup_same_dom|apply IH].
Qed.

Lemma step_same_dom (D : Digest) (ev : Event) (s : State) :
  (∀ n id t b now sid, ev ≠ EMakeCall n id t b now sid) →
  same_dom s (step D ev s).
Proof.
  intros Hev.
  destruct ev as [ok|f|avail|n id t b now sid|id err now|m now|m now|id now|id digits|now];
    cbn [step].
  - apply same_dom_eq, initialize_frame.
  - apply same_dom_eq, registrationTimer_frame.
  - done.
  - by edestruct Hev.
  - unfold inviteSent. destruct err; by eapply same_dom_alter.
  - apply handleIncomingMessage_same_dom.
  - apply handleIncomingRequest_same_dom.
  - apply hangup_same_dom.
  - apply sendDTMF_same_dom.
  - unfold shutdown. eapply same_dom_trans; [apply foldl_hangup_same_dom|done].
Qed.

(** X23: no operation removes a call from the table.  Whatever happens
    next (hang-up, remote BYE, failure, shutdown, a new start-up), a
    call-id that [getCallStatus] knows stays known. *)
Theorem calls_are_never_forgotten (D : Digest) (ev : Event) (s : State) (id : string) :
  is_Some (getCallStatus id s) → is_Some (getCallStatus id (step D ev s)).
Proof.
  unfold getCallStatus. intros H.
  destruct ev as [| | |n id0 t b now sid| | | | | |];
    try (apply step_same_dom; [congruence|done]).
  cbn [step].
  destruct (makeCall_lookup n id0 t b now sid s) as [(c & Hc & _) Hother].
  unfold getCallStatus in *.
  destruct (decide (id = id0)) as [->|Hne]; [by rewrite Hc|].
  by rewrite Hother.
Qed.






(** ** Shutdown *)





(** ** The REGISTER transaction *)















(** ** The registration promise *)

Lemma futures_inv_ext (s s' : State) :
  futures_inv s → futures s' = futures s →
  registrationResolve s' = registrationResolve s → futures_inv s'.
Proof. unfold futures_inv. by intros H -> ->. Qed.

Lemma futures_inv_reject (s s' : State) (f : nat) (e : string) :
  futures_inv s → futures s' = apply_reject f e (futures s) →
  (registrationResolve s' = registrationResolve s ∨ registrationResolve s' = None) →
  futures_inv s'.
Proof.
  unfold futures_inv, apply_reject. intros H -> Hres g c.
  destruct (futures s !! f) as [c0|] eqn:Ef.
  - destruct (decide (f = g)) as [<-|Hne].
    + rewrite list_lookup_insert_eq by (by eapply lookup_lt_Some).
      intros [= <-]. cbn. destruct (H f c0 Ef) as [H1 H2]. split; [done|].
      destruct Hres as [-> | ->]; done.
    + rewrite list_lookup_insert_ne by done. intros Hc.
      destruct (H g c Hc) as [H1 H2]. split; [done|].
      destruct Hres as [-> | ->]; done.
  - intros Hc. destruct (H g c Hc) as [H1 H2]. split; [done|].
    destruct Hres as [-> | ->]; done.
Qed.

Lemma step_futures_inv (D : Digest) (ev : Event) (s : State) :
  futures_inv s → futures_inv (step D ev s).
Proof.
  intros Hinv.
  destruct ev as [ok|f|avail|n id t b now sid|id err now|m now|m now|id now|id digits|now];
    cbn [step].
  - unfold initialize. destruct (initialized s); [done|]. cbn -[register].
    assert (∀ s0 : State,
              futures s0 = (futures s ++ [ {| resolves := 0; rejects := [] |} ])%list →
              registrationResolve s0 = Some (length (futures s)) →
              futures_inv (register D None s0)) as Hnew.
    { intros s0 E Eres.
      destruct (register_frame D None s0) as (_ & _ & Hf & _ & _ & _ & Hres & _).
      intros g c. rewrite Hf, Hres, E, Eres. intros Hc.
      destruct (decide (g < length (futures s))%nat) as [Hlt|Hge].
      - rewrite lookup_app_l in Hc by done. destruct (Hinv g c Hc) as [H1 _].
        split; [done|]. intros [= ?]. lia.
      - rewrite lookup_app_r in Hc by lia.
        destruct (g - length (futures s))%nat as [|k]; [|by destruct k].
        injection Hc as <-. cbn. split; [lia|done]. }
    destruct (globalSipStarted s), ok, (sip_send_available s); cbn -[register];
      try (by eapply futures_inv_ext); by apply Hnew.
  - unfold registrationTimer. destruct (timer_of f (timers s)); [|done].
    cbn -[register Nat.ltb]. destruct (registered s); [by eapply futures_inv_ext|].
    destruct (_ <? _)%nat.
    + match goal with |- futures_inv (register D ?a ?s0) =>
        destruct (register_frame D a s0) as (_ & _ & Hf & _ & _ & _ & Hres & _) end.
      by eapply futures_inv_ext.
    + eapply futures_inv_reject; [done|done|by left].
  - by eapply futures_inv_ext.
  - destruct (makeCall_frame n id t b now sid s) as (E & _).
    apply reg_view_inv in E as (_ & _ & _ & _ & ? & _ & _ & ? & _).
    by eapply futures_inv_ext.
  - unfold inviteSent. destruct err; by eapply futures_inv_ext.
  - destruct (decide (cs_method <$> h_cseq (m_headers m) = Some "REGISTER")) as [Hr|Hr].
    + unfold handleIncomingMessage.
      destruct (m_status m) as [[|st]|]; [done| |done].
      rewrite bool_decide_eq_true_2 by done.
      repeat case_bool_decide.
      * destruct (challenge D _ _); [done|].
        match goal with |- futures_inv (register D ?a ?s0) =>
          destruct (register_frame D a s0) as (_ & _ & Hf & _ & _ & _ & Hres & _) end.
        by eapply futures_inv_ext.
      * cbn. destruct (registrationResolve s) as [f|] eqn:Ef; [|by eapply futures_inv_ext].
        intros g c. cbn. unfold apply_resolve.
        destruct (futures s !! f) as [c0|] eqn:Ec0.
        -- destruct (decide (f = g)) as [<-|Hne].
           ++ rewrite list_lookup_insert_eq by (by eapply lookup_lt_Some).
              intros [= <-]. cbn. destruct (Hinv f c0 Ec0) as [_ Hz].
              rewrite Hz by done. split; [lia|done].
           ++ rewrite list_lookup_insert_ne by done. intros Hc.
              destruct (Hinv g c Hc) as [H1 _]. done.
        -- intros Hc. destruct (Hinv g c Hc) as [H1 _]. done.
      * destruct (registrationReject s) as [f|]; [|done].
        eapply futures_inv_reject; [done|done|by right].
    + destruct (handleIncomingMessage_call_frame D m now s Hr) as (E & _).
      apply reg_view_inv in E as (_ & _ & _ & _ & ? & _ & _ & ? & _).
      by eapply futures_inv_ext.
  - destruct (handleIncomingRequest_frame m now s) as (E & _).
    apply reg_view_inv in E as (_ & _ & _ & _ & ? & _ & _ & ? & _).
    by eapply futures_inv_ext.
  - destruct (hangup_frame id now s) as (E & _).
    apply reg_view_inv in E as (_ & _ & _ & _ & ? & _ & _ & ? & _).
    by eapply futures_inv_ext.
  - destruct (sendDTMF_frame id digits s) as (E & _).
    apply reg_view_inv in E as (_ & _ & _ & _ & ? & _ & _ & ? & _).
    by eapply futures_inv_ext.
  - unfold shutdown.
    destruct (foldl_hangup_frame now (callOrder s) s) as (E & _).
    apply reg_view_inv in E as (_ & _ & _ & _ & ? & _ & _ & ? & _).
    by eapply futures_inv_ext.
Qed.

(** X27: in every reachable state, [resolve] has been applied at most
    once to each registration promise, and not at all to the promise whose
    resolve function the service still holds. *)
Theorem registration_promise_resolved_at_most_once (D : Digest) (e : Env) (s : State)
    (f : nat) (c : Future) :
  reachable D e s →
  futures s !! f = Some c →
  (resolves c ≤ 1)%nat
  ∧ (registrationResolve s = Some f → resolves c = 0%nat).
Proof.
  intros Hr. revert f c. change (futures_inv s).
  induction Hr as [|s ev _ IH _].
  - intros f c H. cbn in H. by rewrite lookup_nil in H.
  - by apply step_futures_inv.
Qed.

(** ** Address configuration *)

Lemma truthy_nonempty (o : option string) (v : string) : truthy o = Some v → v ≠ "".
Proof. destruct o as [[|a r]|]; cbn; congruence. Qed.

(** X28: after [configureIpAddresses] the public address is
    FALEVONO_PUBLIC_IP when that is set and not empty, and the local
    address otherwise: the private-range test never changes the result,
    it only decides whether the warning is logged (no public address
    configured and the local address private).  Configuration keeps both
    addresses non-empty when the local one was, and the values the
    constructor assigns are never empty. *)
Theorem configured_public_ip (envLocal envPublic : option string)
    (interfaces : list (string * option (list (option InterfaceInfo))))
    (hostname : option (list string)) (cur : IpConfig) :
  cfg_publicIP (fst (configureIpAddresses envLocal envPublic interfaces hostname cur))
  = default (cfg_localIP (fst (configureIpAddresses envLocal envPublic interfaces hostname cur)))
      (truthy envPublic)
  ∧ snd (configureIpAddresses envLocal envPublic interfaces hostname cur)
    = bool_decide (truthy envPublic = None)
      && isPrivateIPv4
           (cfg_localIP (fst (configureIpAddresses envLocal envPublic interfaces hostname cur)))
  ∧ (cfg_localIP cur ≠ "" →
     cfg_localIP (fst (configureIpAddresses envLocal envPublic interfaces hostname cur)) ≠ ""
     ∧ cfg_publicIP (fst (configureIpAddresses envLocal envPublic interfaces hostname cur)) ≠ "")
  ∧ cfg_localIP (constructor_ips envLocal envPublic) ≠ ""
  ∧ cfg_publicIP (constructor_ips envLocal envPublic) ≠ "".
Proof.
  assert (cfg_localIP (constructor_ips envLocal envPublic) ≠ ""
          ∧ cfg_publicIP (constructor_ips envLocal envPublic) ≠ "") as Hctor.
  { unfold constructor_ips. cbn.
    assert (default "127.0.0.1" (truthy envLocal) ≠ "") as Hl.
    { destruct (truthy envLocal) eqn:E; cbn; [by eapply truthy_nonempty|done]. }
    split; [done|].
    destruct (truthy envPublic) eqn:E; cbn; [by eapply truthy_nonempty|done]. }
  enough (cfg_publicIP (fst (configureIpAddresses envLocal envPublic interfaces hostname cur))
          = default (cfg_localIP
                       (fst (configureIpAddresses envLocal envPublic interfaces hostname cur)))
              (truthy envPublic)
          ∧ snd (configureIpAddresses envLocal envPublic interfaces hostname cur)
            = bool_decide (truthy envPublic = None)
              && isPrivateIPv4
                   (cfg_localIP
                      (fst (configureIpAddresses envLocal envPublic interfaces hostname cur)))
          ∧ (cfg_localIP cur ≠ "" →
             cfg_localIP
               (fst (configureIpAddresses envLocal envPublic interfaces hostname cur)) ≠ ""
             ∧ cfg_publicIP
                 (fst (configureIpAddresses envLocal envPublic interfaces hostname cur)) ≠ ""))
    as (H1 & H2 & H3) by (destruct Hctor; done).
  clear Hctor. unfold configureIpAddresses.
  set (l := match truthy envLocal with Some v => v | None => _ end).
  assert (cfg_localIP cur ≠ "" → l ≠ "") as Hl.
  { intros Hc. subst l.
    destruct (truthy envLocal) eqn:E1; [by eapply truthy_nonempty|].
    destruct (truthy (detectFirstExternalIPv4 _)) eqn:E2; [by eapply truthy_nonempty|].
    destruct hostname as [parts|]; [|done].
    destruct (truthy (head _)) eqn:E3; [by eapply truthy_nonempty|done]. }
  assert (∀ v, truthy envLocal = Some v → l = v) as Hlv.
  { intros v Hv. subst l. by rewrite Hv. }
  clearbody l.
  destruct (truthy envPublic) as [p|] eqn:Ep; cbn.
  { repeat split; first [done | by apply Hl | by eapply truthy_nonempty]. }
  destruct (truthy envLocal) as [v|] eqn:Ev.
  - rewrite <- (Hlv v eq_refl).
    destruct (isPrivateIPv4 l) eqn:E; cbn; rewrite ?E; repeat split;
      first [done | by apply Hl].
  - destruct (isPrivateIPv4 l) eqn:E; cbn; rewrite ?E; repeat split;
      first [done | by apply Hl].
Qed.

Lemma first_external_Some (entries : list (option InterfaceInfo)) (a : string) :
  first_external entries = Some a →
  ∃ entry, Some entry ∈ entries ∧ family_name (if_family entry) = "IPv4"
           ∧ if_internal entry = false ∧ if_address entry = a.
Proof.
  induction entries as [|[entry|] r IH]; cbn; [done| |].
  - destruct (bool_decide _ && _) eqn:E.
    + intros [= <-]. apply andb_true_iff in E as [E1%bool_decide_eq_true E2%negb_true_iff].
      exists entry. repeat split; try done. by left.
    + intros (entry' & ? & ?)%IH. exists entry'. split; [by right|done].
  - intros (entry' & ? & ?)%IH. exists entry'. split; [by right|done].
Qed.

Lemma first_external_None (entries : list (option InterfaceInfo)) :
  first_external entries = None →
  ∀ entry, Some entry ∈ entries →
           family_name (if_family entry) ≠ "IPv4" ∨ if_internal entry = true.
Proof.
  induction entries as [|[entry|] r IH]; cbn.
  - intros _ entry Hin. by apply elem_of_nil in Hin.
  - destruct (bool_decide _ && _) eqn:E; [done|].
    intros Hr entry' [[= ->]|Hin]%elem_of_cons; [|by apply IH].
    apply andb_false_iff in E as [E%bool_decide_eq_false|E%negb_false_iff]; auto.
  - intros Hr entry' [?|Hin]%elem_of_cons; [done|by apply IH].
Qed.

(** X29: [detectFirstExternalIPv4] only ever returns the address of an
    entry that is IPv4 (family "IPv4" or 4) and not internal, so never a
    loopback or IPv6 address; it returns nothing exactly when no
    interface has such an entry. *)
Theorem detectFirstExternalIPv4_spec
    (interfaces : list (string * option (list (option InterfaceInfo)))) :
  match detectFirstExternalIPv4 interfaces with
  | Some a =>
      ∃ name entries entry,
        (name, Some entries) ∈ interfaces ∧ Some entry ∈ entries
        ∧ family_name (if_family entry) = "IPv4"
        ∧ if_internal entry = false ∧ if_address entry = a
  | None =>
      ∀ name entries entry,
        (name, Some entries) ∈ interfaces → Some entry ∈ entries →
        family_name (if_family entry) ≠ "IPv4" ∨ if_internal entry = true
  end.
Proof.
  induction interfaces as [|[name [entries|]] r IH]; cbn.
  - intros name entries entry Hin. by apply elem_of_nil in Hin.
  - destruct (first_external entries) as [a|] eqn:E.
    + apply first_external_Some in E as (entry & ? & ? & ? & ?).
      exists name, entries, entry. repeat split; try done. by left.
    + destruct (detectFirstExternalIPv4 r) as [a|].
      * destruct IH as (name' & entries' & entry & ? & ?).
        exists name', entries', entry. split; [by right|done].
      * intros name' entries' entry [[= -> ->]|Hin]%elem_of_cons Hentry.
        -- by eapply first_external_None.
        -- by eapply IH.
  - destruct (detectFirstExternalIPv4 r) as [a|].
    + destruct IH as (name' & entries' & entry & ? & ?).
      exists name', entries', entry. split; [by right|done].
    + intros name' entries' entry [?|Hin]%elem_of_cons Hentry; [done|by eapply IH].
Qed.

(** X30: on an address that starts with 172, a second field below 256
    and a dot, [isPrivateIPv4] answers true exactly when the second field
    is between 16 and 31: the regular expression matches the block
    172.16.0.0/12 and nothing else of 172.0.0.0/8. *)
Theorem private_172_block_is_16_to_31 (b : N) (rest : string) :
  (b < 256)%N →
  isPrivateIPv4 ("172." +:+ pretty b +:+ "." +:+ rest)
  = bool_decide (16 ≤ b ≤ 31)%N.
Proof.
  intros Hb.
  assert (∃ n : nat, b = N.of_nat n ∧ (n < 256)%nat) as (n & -> & Hn).
  { exists (N.to_nat b). split; lia. }
  clear Hb.
  do 256 (destruct n as [|n]; [destruct rest; vm_compute; reflexivity|]).
  lia.
Qed.

(** * Worked examples *)



Lemma hangup_finished_call_witness :
  fst (hangup "c9" 7 failed_call) = true
  ∧ sent (snd (hangup "c9" 7 failed_call)) = sent failed_call.
Proof.
  destruct (getCallStatus "c9" failed_call) as [c|] eqn:E; [|vm_compute in E; discriminate E].
  assert (status <$> getCallStatus "c9" failed_call = Some failed) as X
    by (vm_compute; reflexivity).
  rewrite E in X. cbn in X. injection X as Hst.
  destruct (hangup_finished_call "c9" 7 failed_call c E (or_intror Hst)) as (H1 & H2 & _).
  exact (conj H1 H2).
Defined.

Lemma hangup_without_transport_witness :
  hangup "c1" 7 ringing_offline = (false, ringing_offline).
Proof.
  destruct (getCallStatus "c1" ringing_offline) as [c|] eqn:E;
    [|vm_compute in E; discriminate E].
  assert (sip_send_available ringing_offline = false) as Hs by (vm_compute; reflexivity).
  assert (status <$> getCallStatus "c1" ringing_offline = Some ringing) as X
    by (vm_compute; reflexivity).
  rewrite E in X. cbn in X. injection X as Hst.
  assert (is_Some (getCallStatus "c1" ringing_offline ≫= λ c0, dialog c0 ≫= inviteRequest)) as Y
    by (vm_compute; eexists; reflexivity).
  rewrite E in Y. cbn in Y.
  exact (hangup_without_transport "c1" 7 ringing_offline c E Hs
           (or_introl (conj (or_introl Hst) Y))).
Defined.

Lemma sendDTMF_without_transport_witness :
  fst (sendDTMF "c1" "5" talking_offline) = false
  ∧ sent (snd (sendDTMF "c1" "5" talking_offline)) = sent talking_offline.
Proof.
  destruct (getCallStatus "c1" talking_offline) as [c|] eqn:E;
    [|vm_compute in E; discriminate E].
  assert (sip_send_available talking_offline = false) as Hs by (vm_compute; reflexivity).
  assert (status <$> getCallStatus "c1" talking_offline = Some answered) as X
    by (vm_compute; reflexivity).
  rewrite E in X. cbn in X. injection X as Hst.
  assert (is_Some (getCallStatus "c1" talking_offline ≫= dialog)) as Z
    by (vm_compute; eexists; reflexivity).
  rewrite E in Z. cbn in Z. destruct Z as [d Ed].
  assert (is_Some (getCallStatus "c1" talking_offline ≫= λ c0, dialog c0
                   ≫= λ d, lastResponse d ≫= λ r, contact_or (m_headers r) (remote d))) as Y
    by (vm_compute; eexists; reflexivity).
  rewrite E in Y. cbn in Y. rewrite Ed in Y. cbn in Y.
  assert (is_Some (getCallStatus "c1" talking_offline ≫= λ c0, dialog c0 ≫= inviteRequest)) as W
    by (vm_compute; eexists; reflexivity).
  rewrite E in W. cbn in W. rewrite Ed in W. cbn in W.
  destruct (sendDTMF_without_transport "c1" "5" talking_offline c d E Hst Ed Y W Hs)
    as (H1 & H2 & _).
  exact (conj H1 H2).
Defined.

Lemma bye_ends_call_and_is_answered_witness :
  sent (handleIncomingRequest (bye_request "c1") 9 talking)
  = (if sip_send_available talking
     then (sent talking ++ [OutOk 200 "OK" (m_headers (bye_request "c1"))])%list
     else sent talking).
Proof.
  exact (proj1 (bye_ends_call_and_is_answered (bye_request "c1") 9 talking eq_refl)).
Defined.

Lemma ignored_responses_witness :
  handleIncomingMessage demo_digest call_forwarded 5 ringing_state = ringing_state.
Proof.
  assert (cs_method <$> h_cseq (m_headers call_forwarded) ≠ Some "REGISTER") as H0
    by (vm_compute; discriminate).
  assert ((181 < 400)%nat ∧ 181%nat ≠ 180%nat ∧ 181%nat ≠ 183%nat ∧ 181%nat ≠ 200%nat)
    as H1 by lia.
  exact (ignored_responses demo_digest call_forwarded 5 ringing_state 181 eq_refl H0
           (or_introl H1)).
Defined.

Lemma error_response_fails_call_witness :
  ∃ c', getCallStatus (h_call_id (m_headers not_found))
          (handleIncomingMessage demo_digest not_found 5 ringing_state) = Some c'
        ∧ status c' = failed
        ∧ error c' = Some (pretty 404%nat +:+ " " +:+ m_reason not_found).
Proof.
  destruct (getCallStatus (h_call_id (m_headers not_found)) ringing_state) as [c|] eqn:E;
    [|vm_compute in E; discriminate E].
  assert (cs_method <$> h_cseq (m_headers not_found) ≠ Some "REGISTER") as H0
    by (vm_compute; discriminate).
  destruct (error_response_fails_call demo_digest not_found 5 ringing_state 404 c
              eq_refl H0 E ltac:(lia) ltac:(lia) ltac:(lia) ltac:(lia) ltac:(lia))
    as (c' & H1 & H2 & H3 & _).
  exact (ex_intro _ c' (conj H1 (conj H2 H3))).
Defined.


Lemma late_ringing_reopens_ended_call_witness :
  ∃ c', getCallStatus "c1"
          (handleIncomingMessage demo_digest ringing_180 8
             (snd (hangup "c1" 6 ringing_state))) = Some c'
        ∧ status c' = ringing ∧ endTime c' = Some 6%nat.
Proof.
  assert (fst (hangup "c1" 6 ringing_state) = true) as H by (vm_compute; reflexivity).
  assert (cs_method <$> h_cseq (m_headers ringing_180) ≠ Some "REGISTER") as H0
    by (vm_compute; discriminate).
  exact (late_ringing_reopens_ended_call demo_digest "c1" 6 8 ringing_state ringing_180 180
           H eq_refl (or_introl eq_refl) eq_refl H0).
Defined.

Lemma invite_challenge_resends_invite_witness :
  ∃ r : Request,
    sent (handleIncomingMessage demo_digest invite_challenge 4 ringing_state)
    = (sent ringing_state ++ [OutRequest r])%list
    ∧ r_authorization r = Some ("Digest username=" +:+ sipUsername (env ringing_state)).
Proof.
  destruct (getCallStatus (h_call_id (m_headers invite_challenge)) ringing_state)
    as [c|] eqn:E; [|vm_compute in E; discriminate E].
  assert (is_Some (getCallStatus (h_call_id (m_headers invite_challenge)) ringing_state
                   ≫= dialog)) as Z by (vm_compute; eexists; reflexivity).
  rewrite E in Z. cbn in Z. destruct Z as [d Ed].
  assert (is_Some (getCallStatus (h_call_id (m_headers invite_challenge)) ringing_state
                   ≫= λ c0, dialog c0 ≫= inviteRequest)) as W
    by (vm_compute; eexists; reflexivity).
  rewrite E in W. cbn in W. rewrite Ed in W. cbn in W. destruct W as [inv Ei].
  assert (sip_send_available ringing_state = true) as Hs by (vm_compute; reflexivity).
  destruct (invite_challenge_resends_invite demo_digest invite_challenge 4 ringing_state
              401 c d inv {| cs_method := "INVITE"; cs_seq := 1 |}
              [("realm", "vono2.me"); ("nonce", "abc")]
              [("realm", "vono2.me"); ("nonce", "abc")]
              ("Digest username=" +:+ sipUsername (env ringing_state))
              eq_refl (or_introl eq_refl) eq_refl eq_refl E Ed Ei eq_refl eq_refl Hs)
    as (c' & d' & r & H1 & _ & _ & _ & _ & _ & _ & _ & _ & H2 & _).
  exact (ex_intro _ r (conj H1 H2)).
Defined.

Lemma register_challenge_is_answered_witness :
  registrationAttempts (handleIncomingMessage demo_digest register_challenge 2 registering)
  = registrationAttempts registering.
Proof.
  assert (sip_send_available registering = true) as Hs by (vm_compute; reflexivity).
  exact (proj1 (register_challenge_is_answered demo_digest register_challenge 2 registering
                  401 [("realm", "vono2.me"); ("nonce", "abc")]
                  eq_refl (or_introl eq_refl) eq_refl eq_refl
                  (λ req, ex_intro _ _ (ex_intro _ _ eq_refl)) Hs)).
Defined.

Lemma registration_timer_retries_witness :
  registrationAttempts (registrationTimer demo_digest 0 registering)
  = S (registrationAttempts registering).
Proof.
  assert (timer_of 0 (timers registering) = Some 20000%N) as Ht by (vm_compute; reflexivity).
  assert (registered registering = false) as Hr by (vm_compute; reflexivity).
  assert (registrationAttempts registering = 1%nat) as Ha by (vm_compute; reflexivity).
  assert (maxRegistrationAttempts registering = 3%nat) as Hm by (vm_compute; reflexivity).
  assert (registrationAttempts registering < maxRegistrationAttempts registering)%nat as Hlt
    by (rewrite Ha, Hm; lia).
  destruct (registration_timer_retries demo_digest 0 registering 20000%N Ht Hr Hlt)
    as (_ & _ & H & _).
  exact H.
Defined.

Lemma timeout_then_failure_rejects_twice_witness :
  futures (handleIncomingMessage demo_digest register_forbidden 9
             (registrationTimer demo_digest 1 stalled)) !! 1%nat
  = Some {| resolves := resolves {| resolves := 0; rejects := [] |};
            rejects := (rejects {| resolves := 0; rejects := [] |}
                        ++ [ timeoutMessage (NODE_ENV (env stalled)) 20000%N
                               (registrationAttempts stalled);
                             "Registration failed with status " +:+ pretty 403%nat ])%list |}.
Proof.
  assert (timer_of 1 (timers stalled) = Some 20000%N) as Ht by (vm_compute; reflexivity).
  assert (registered stalled = false) as Hr by (vm_compute; reflexivity).
  assert (registrationAttempts stalled = 3%nat) as Ha by (vm_compute; reflexivity).
  assert (maxRegistrationAttempts stalled = 3%nat) as Hm by (vm_compute; reflexivity).
  assert (maxRegistrationAttempts stalled ≤ registrationAttempts stalled)%nat as Hle
    by (rewrite Ha, Hm; lia).
  assert (registrationReject stalled = Some 1%nat) as Hj by (vm_compute; reflexivity).
  assert (futures stalled !! 1%nat = Some {| resolves := 0; rejects := [] |}) as Hc
    by (vm_compute; reflexivity).
  exact (timeout_then_failure_rejects_twice demo_digest 1 stalled 20000%N
           register_forbidden 9 403 {| resolves := 0; rejects := [] |}
           Ht Hr Hle Hj Hc eq_refl eq_refl
           ltac:(lia) ltac:(lia) ltac:(lia) ltac:(lia)).
Defined.

Lemma initialize_starts_registration_witness :
  initialized (initialize demo_digest true (initial demo_env)) = true.
Proof.
  exact (proj1 (initialize_starts_registration demo_digest true (initial demo_env)
                  eq_refl (or_introl (conj eq_refl eq_refl)))).
Defined.

Lemma initialize_failure_can_be_retried_witness :
  initialized (initialize demo_digest false (initial demo_env)) = false
  ∧ initialized (initialize demo_digest true
                   (initialize demo_digest false (initial demo_env))) = true.
Proof.
  destruct (initialize_failure_can_be_retried demo_digest false (initial demo_env)
              eq_refl (or_introl (conj eq_refl eq_refl)))
    as (H1 & _ & _ & _ & _ & _ & _ & H2 & _).
  exact (conj H1 H2).
Defined.

Lemma tracked_calls_retain_their_invite_witness :
  ∃ c, getCallStatus "c1" ringing_state = Some c ∧ callId c = "c1".
Proof.
  assert (fresh_runb demo_digest (initial demo_env) placed_call = true) as Hf
    by (vm_compute; reflexivity).
  destruct (getCallStatus "c1" ringing_state) as [c|] eqn:E;
    [|vm_compute in E; discriminate E].
  destruct (tracked_calls_retain_their_invite demo_digest demo_env ringing_state "c1" c
              (reachable_run demo_digest demo_env placed_call (initial demo_env)
                 (reach_initial demo_digest demo_env) Hf) E) as (H1 & _).
  exact (ex_intro _ c (conj eq_refl H1)).
Defined.

Lemma hangup_cancels_unanswered_call_witness :
  fst (hangup "c1" 6 ringing_state) = true.
Proof.
  assert (fresh_runb demo_digest (initial demo_env) placed_call = true) as Hf
    by (vm_compute; reflexivity).
  destruct (getCallStatus "c1" ringing_state) as [c|] eqn:E;
    [|vm_compute in E; discriminate E].
  assert (status <$> getCallStatus "c1" ringing_state = Some ringing) as X
    by (vm_compute; reflexivity).
  rewrite E in X. cbn in X. injection X as Hst.
  assert (sip_send_available ringing_state = true) as Hs by (vm_compute; reflexivity).
  exact (proj1 (hangup_cancels_unanswered_call demo_digest demo_env ringing_state "c1" c 6
                  (reachable_run demo_digest demo_env placed_call (initial demo_env)
                     (reach_initial demo_digest demo_env) Hf)
                  E (or_introl Hst) Hs)).
Defined.

Lemma hangup_sends_bye_witness :
  fst (hangup "c1" 6 talking) = true.
Proof.
  assert (fresh_runb demo_digest (initial demo_env) talking_events = true) as Hf
    by (vm_compute; reflexivity).
  destruct (getCallStatus "c1" talking) as [c|] eqn:E; [|vm_compute in E; discriminate E].
  assert (status <$> getCallStatus "c1" talking = Some answered) as X
    by (vm_compute; reflexivity).
  rewrite E in X. cbn in X. injection X as Hst.
  assert (is_Some (getCallStatus "c1" talking ≫= dialog)) as Z
    by (vm_compute; eexists; reflexivity).
  rewrite E in Z. cbn in Z. destruct Z as [d Ed].
  assert (getCallStatus "c1" talking ≫= (λ c0, dialog c0 ≫= lastResponse) = Some ok_invite) as L
    by (vm_compute; reflexivity).
  rewrite E in L. cbn in L. rewrite Ed in L. cbn in L.
  assert (getCallStatus "c1" talking
          ≫= (λ c0, dialog c0 ≫= λ d, contact_or (m_headers ok_invite) (remote d))
          = Some "sip:15550123456@198.51.100.2:5060") as U by (vm_compute; reflexivity).
  rewrite E in U. cbn in U. rewrite Ed in U. cbn in U.
  assert (sip_send_available talking = true) as Hs by (vm_compute; reflexivity).
  exact (proj1 (hangup_sends_bye demo_digest demo_env talking "c1" c d ok_invite
                  "sip:15550123456@198.51.100.2:5060" 6
                  (reachable_run demo_digest demo_env talking_events (initial demo_env)
                     (reach_initial demo_digest demo_env) Hf)
                  E Hst Ed L U Hs)).
Defined.

Lemma calls_are_never_forgotten_witness :
  is_Some (getCallStatus "c1" (step demo_digest (EShutdown 9) ringing_state)).
Proof.
  assert (is_Some (getCallStatus "c1" ringing_state)) as H
    by (vm_compute; eexists; reflexivity).
  exact (calls_are_never_forgotten demo_digest (EShutdown 9) ringing_state "c1" H).
Defined.




Lemma registration_promise_resolved_at_most_once_witness :
  (resolves {| resolves := 1; rejects := [] |} ≤ 1)%nat
  ∧ (registrationResolve ready = Some 0%nat
     → resolves {| resolves := 1; rejects := [] |} = 0%nat).
Proof.
  assert (fresh_runb demo_digest (initial demo_env) ready_events = true) as Hf
    by (vm_compute; reflexivity).
  assert (futures ready !! 0%nat = Some {| resolves := 1; rejects := [] |}) as Hc
    by (vm_compute; reflexivity).
  exact (registration_promise_resolved_at_most_once demo_digest demo_env ready 0
           {| resolves := 1; rejects := [] |}
           (reachable_run demo_digest demo_env ready_events (initial demo_env)
              (reach_initial demo_digest demo_env) Hf) Hc).
Defined.

Lemma private_172_block_is_16_to_31_witness :
  isPrivateIPv4 ("172." +:+ pretty 20%N +:+ "." +:+ "0.5")
  = bool_decide (16 ≤ 20 ≤ 31)%N.
Proof.
  exact (private_172_block_is_16_to_31 20 "0.5" eq_refl).
Defined.
